(** * repl-enhancer: the session loop of [repl.py] and the library calls it makes

    [repl.py] wraps a line-oriented program (started with [pexpect.spawn])
    into a prompt_toolkit session.  Its [main] alternates between
    [p.expect(args.cmd_prompt)] and [run(...)], and leaves through [break].

    The development models
    - Python [bytes] as lists of 8-bit characters and Python [str] as lists
      of code points;
    - the calls [main] makes into the Python runtime and into pexpect
      ([bytes.decode], [str.strip], [print], [spawn.expect],
      [spawn.sendline], [spawn.close]) by what their documentation says;
    - the outside world (what the child writes, what the user types) as
      tapes that the calls consume;
    - the calls [main] makes on the outside world as a trace. *)

From Stdlib Require Import Ascii String List NArith Arith Bool Lia.
Import ListNotations.

Local Open Scope list_scope.

(** ** Data *)

(** Python [bytes]. *)
Definition bytes := list ascii.

(** Python [str]: a sequence of Unicode code points. *)
Definition text := list N.

(** A byte string written as a literal. *)
Definition b (s : string) : bytes := list_ascii_of_string s.

(** An ASCII literal read as a [str]. *)
Definition u (s : string) : text := map N_of_ascii (list_ascii_of_string s).

Definition text_eqb (x y : text) : bool :=
  if list_eq_dec N.eq_dec x y then true else false.

(** ** Regular expressions: [re.compile(pattern, re.DOTALL)]

    [spawn.expect] compiles a pattern given as a string with
    [re.compile(p, re.DOTALL)].  The fragment modelled here has literal
    bytes, [.], alternation, grouping, the greedy quantifiers [*], [+], [?]
    and escaped punctuation. *)
Module Re.

Inductive regex : Type :=
| Empty
| Lit (c : ascii)
| AnyByte
| Cat (r1 r2 : regex)
| Or (r1 r2 : regex)
| Star (r : regex).

(** The characters with a meaning of their own in a pattern. *)
Definition specials : bytes := b ".^$*+?{}[]\|()".

Definition is_special (c : ascii) : bool := existsb (Ascii.eqb c) specials.

Definition is_alnum (c : ascii) : bool :=
  let n := nat_of_ascii c in
  (((48 <=? n) && (n <=? 57)) || ((65 <=? n) && (n <=? 90))
   || ((97 <=? n) && (n <=? 122)))%nat.

Fixpoint nullable (r : regex) : bool :=
  match r with
  | Empty => true
  | Lit _ => false
  | AnyByte => false
  | Cat r1 r2 => nullable r1 && nullable r2
  | Or r1 r2 => nullable r1 || nullable r2
  | Star _ => true
  end.

(** *** Parsing *)

(** A group being read: the branches already closed by [|] (latest first)
    and the items of the branch being read (latest first); an item carries
    whether it already has a quantifier. *)
Record frame : Type := {
  branches : list regex;
  items : list (regex * bool)
}.

Definition empty_frame : frame := {| branches := []; items := [] |}.

Definition cat_of (l : list regex) : regex := fold_right Cat Empty l.

Fixpoint or_of (l : list regex) : regex :=
  match l with
  | [] => Empty
  | [r] => r
  | r :: rs => Or r (or_of rs)
  end.

Definition branch_of (its : list (regex * bool)) : regex :=
  cat_of (rev (map fst its)).

Definition push_item (r : regex) (f : frame) : frame :=
  {| branches := branches f; items := (r, false) :: items f |}.

Definition next_branch (f : frame) : frame :=
  {| branches := branch_of (items f) :: branches f; items := [] |}.

Definition close_frame (f : frame) : regex :=
  or_of (rev (branch_of (items f) :: branches f)).

Inductive quantifier : Type := QStar | QPlus | QOpt.

Definition apply_quantifier (q : quantifier) (r : regex) : option regex :=
  match q with
  | QStar => if nullable r then None else Some (Star r)
  | QPlus => if nullable r then None else Some (Cat r (Star r))
  | QOpt => Some (Or r Empty)
  end.

(** A quantifier applies to the last item; with nothing before it
    ("nothing to repeat"), after another quantifier ("multiple repeat",
    lazy and possessive forms) or around a body that can match the empty
    string, the pattern is outside the fragment. *)
Definition quantify (q : quantifier) (f : frame) : option frame :=
  match items f with
  | (r, false) :: its =>
      match apply_quantifier q r with
      | Some r' => Some {| branches := branches f; items := (r', true) :: its |}
      | None => None
      end
  | _ => None
  end.

(** [parse pat cur stack]: [None] is a pattern that [re.compile] rejects or
    that is outside the fragment. *)
Fixpoint parse (pat : bytes) (cur : frame) (stack : list frame) : option regex :=
  match pat with
  | [] =>
      match stack with
      | [] => Some (close_frame cur)
      | _ :: _ => None
      end
  | c :: rest =>
      if Ascii.eqb c "\"%char then
        match rest with
        | e :: rest' =>
            if is_alnum e then None
            else parse rest' (push_item (Lit e) cur) stack
        | [] => None
        end
      else if Ascii.eqb c "."%char then parse rest (push_item AnyByte cur) stack
      else if Ascii.eqb c "|"%char then parse rest (next_branch cur) stack
      else if Ascii.eqb c "("%char then parse rest empty_frame (cur :: stack)
      else if Ascii.eqb c ")"%char then
        match stack with
        | [] => None
        | parent :: stack' =>
            parse rest (push_item (close_frame cur) parent) stack'
        end
      else if Ascii.eqb c "*"%char then
        match quantify QStar cur with
        | Some cur' => parse rest cur' stack
        | None => None
        end
      else if Ascii.eqb c "+"%char then
        match quantify QPlus cur with
        | Some cur' => parse rest cur' stack
        | None => None
        end
      else if Ascii.eqb c "?"%char then
        match quantify QOpt cur with
        | Some cur' => parse rest cur' stack
        | None => None
        end
      else if is_special c then None
      else parse rest (push_item (Lit c) cur) stack
  end.

(** [re.compile(pat, re.DOTALL)]. *)
Definition compile (pat : bytes) : option regex := parse pat empty_frame [].

(** *** Matching *)

(** [match_here r s k]: match [r] at the head of [s], then continue with
    [k] on what is left; alternatives and repetitions are tried in the
    order of a backtracking matcher (left branch first, longest repetition
    first).  The result is the input that remains after the whole match. *)
Fixpoint match_here (r : regex) (s : bytes) (k : bytes -> option bytes)
  : option bytes :=
  match r with
  | Empty => k s
  | Lit c =>
      match s with
      | x :: s' => if Ascii.eqb x c then k s' else None
      | [] => None
      end
  | AnyByte =>
      match s with
      | _ :: s' => k s'
      | [] => None
      end
  | Cat r1 r2 => match_here r1 s (fun s' => match_here r2 s' k)
  | Or r1 r2 =>
      match match_here r1 s k with
      | Some out => Some out
      | None => match_here r2 s k
      end
  | Star r1 =>
      (fix star (fuel : nat) (s : bytes) {struct fuel} : option bytes :=
         match fuel with
         | O => k s
         | S fuel' =>
             match match_here r1 s
                     (fun s' => if length s' <? length s
                                then star fuel' s' else None) with
             | Some out => Some out
             | None => k s
             end
         end) (length s) s
  end.

(** [pattern.search(buffer)]: the leftmost position where the pattern
    matches, as [(start, end)]; [pos] is the offset of [s] in the buffer. *)
Fixpoint search_from (r : regex) (pos : nat) (s : bytes) : option (nat * nat) :=
  match match_here r s Some with
  | Some rest => Some (pos, pos + (length s - length rest))
  | None =>
      match s with
      | [] => None
      | _ :: s' => search_from r (S pos) s'
      end
  end.

Definition search (r : regex) (buffer : bytes) : option (nat * nat) :=
  search_from r 0 buffer.

End Re.

(** ** The Python runtime: exceptions, [bytes.decode], [str.strip] *)

(** The exceptions that can leave the calls of the session loop. *)
Inductive exception : Type :=
| EOF                  (* pexpect.EOF *)
| TIMEOUT              (* pexpect.TIMEOUT *)
| ReError              (* re.error; also a pattern outside the fragment of [Re] *)
| UnicodeEncodeError
| UnicodeDecodeError
| OSError
| KeyboardInterrupt.

Module Py.

(** The value of a continuation byte [10xxxxxx]. *)
Definition continuation (c : ascii) : option N :=
  let n := N_of_ascii c in
  if ((128 <=? n) && (n <=? 191))%N then Some (n - 128)%N else None.

(** [bs.decode('utf-8')] with the default [errors='strict']: [None] is
    [UnicodeDecodeError].  Overlong forms, surrogates and code points
    above U+10FFFF are invalid. *)
Fixpoint utf8_decode (bs : bytes) : option text :=
  match bs with
  | [] => Some []
  | b0 :: r0 =>
      let n0 := N_of_ascii b0 in
      if (n0 <? 128)%N then option_map (cons n0) (utf8_decode r0)
      else if ((192 <=? n0) && (n0 <=? 223))%N then
        match r0 with
        | b1 :: r1 =>
            match continuation b1 with
            | Some c1 =>
                let cp := ((n0 - 192) * 64 + c1)%N in
                if (cp <? 128)%N then None
                else option_map (cons cp) (utf8_decode r1)
            | None => None
            end
        | _ => None
        end
      else if ((224 <=? n0) && (n0 <=? 239))%N then
        match r0 with
        | b1 :: b2 :: r2 =>
            match continuation b1, continuation b2 with
            | Some c1, Some c2 =>
                let cp := ((n0 - 224) * 4096 + c1 * 64 + c2)%N in
                if ((cp <? 2048) || ((55296 <=? cp) && (cp <=? 57343)))%N
                then None
                else option_map (cons cp) (utf8_decode r2)
            | _, _ => None
            end
        | _ => None
        end
      else if ((240 <=? n0) && (n0 <=? 247))%N then
        match r0 with
        | b1 :: b2 :: b3 :: r3 =>
            match continuation b1, continuation b2, continuation b3 with
            | Some c1, Some c2, Some c3 =>
                let cp := ((n0 - 240) * 262144 + c1 * 4096 + c2 * 64 + c3)%N in
                if ((cp <? 65536) || (1114111 <? cp))%N then None
                else option_map (cons cp) (utf8_decode r3)
            | _, _, _ => None
            end
        | _ => None
        end
      else None
  end.

(** [s.encode('ascii')]: [None] is [UnicodeEncodeError]. *)
Definition ascii_encode (s : text) : option bytes :=
  if forallb (fun c => (c <? 128)%N) s then Some (map ascii_of_N s) else None.

(** [c.isspace()]: the white space that [str.strip()] removes. *)
Definition isspace (c : N) : bool :=
  (((9 <=? c) && (c <=? 13)) || ((28 <=? c) && (c <=? 32))
   || (c =? 133) || (c =? 160) || (c =? 5760)
   || ((8192 <=? c) && (c <=? 8202))
   || (c =? 8232) || (c =? 8233) || (c =? 8239) || (c =? 8287)
   || (c =? 12288))%N.

(** [s.lstrip()]. *)
Fixpoint lstrip (s : text) : text :=
  match s with
  | [] => []
  | c :: s' => if isspace c then lstrip s' else s
  end.

(** [s.rstrip()]. *)
Definition rstrip (s : text) : text := rev (lstrip (rev s)).

(** [s.strip()]. *)
Definition strip (s : text) : text := rstrip (lstrip s).

(** What [print(s)] writes to standard output. *)
Definition print_output (s : text) : text := s ++ [10%N].

End Py.

(** ** pexpect: [spawn.expect], [spawn.sendline], [spawn.close] *)
Module Pexpect.

(** The fields of a [spawn] object that [expect] reads and writes:
    the bytes read and not yet consumed by a match, and [before]. *)
Record spawn : Type := {
  buffer : bytes;
  before : bytes
}.

(** A freshly spawned child: nothing read yet. *)
Definition fresh : spawn := {| buffer := []; before := [] |}.

(** What one [read_nonblocking] of the child's output gives: a chunk, the
    end of the stream, or nothing within the time allowed. *)
Inductive read_result : Type :=
| Data (chunk : bytes)
| ReadEOF
| ReadTIMEOUT.

Inductive expect_result : Type :=
| Matched
| ExpectRaised (e : exception)
| ExpectWaiting.          (* the tape of reads ended: still blocked in a read *)

(** [spawn._coerce_expect_string]: a [str] pattern is encoded as ASCII. *)
Definition coerce_expect_string (s : text) : option bytes := Py.ascii_encode s.

(** A match found in [window]: [before] is what precedes it, the buffer
    keeps what follows it. *)
Definition do_search (r : Re.regex) (window : bytes) : option spawn :=
  match Re.search r window with
  | Some (start, stop) =>
      Some {| buffer := skipn stop window; before := firstn start window |}
  | None => None
  end.

(** [Expecter.existing_data]: search what is already in the buffer. *)
Definition existing_data (r : Re.regex) (p : spawn) : option spawn :=
  do_search r (buffer p).

(** [Expecter.new_data]: append the chunk and search the whole buffer
    (no search window is set). *)
Definition new_data (r : Re.regex) (p : spawn) (chunk : bytes)
  : spawn + spawn :=
  let window := buffer p ++ chunk in
  match do_search r window with
  | Some p' => inl p'
  | None => inr {| buffer := window; before := before p |}
  end.

(** The reading loop of [Expecter.expect_loop]. *)
Fixpoint read_loop (r : Re.regex) (p : spawn) (reads : list read_result)
  : expect_result * spawn * list read_result :=
  match reads with
  | [] => (ExpectWaiting, p, [])
  | Data chunk :: reads' =>
      match new_data r p chunk with
      | inl p' => (Matched, p', reads')
      | inr p' => read_loop r p' reads'
      end
  | ReadEOF :: reads' =>
      (ExpectRaised EOF, {| buffer := []; before := buffer p |}, reads')
  | ReadTIMEOUT :: reads' =>
      (ExpectRaised TIMEOUT, {| buffer := buffer p; before := buffer p |}, reads')
  end.

Definition expect_loop (r : Re.regex) (p : spawn) (reads : list read_result)
  : expect_result * spawn * list read_result :=
  match existing_data r p with
  | Some p' => (Matched, p', reads)
  | None => read_loop r p reads
  end.

(** [p.expect(pattern)] with a [str] pattern. *)
Definition expect (pattern : text) (p : spawn) (reads : list read_result)
  : expect_result * spawn * list read_result :=
  match coerce_expect_string pattern with
  | None => (ExpectRaised UnicodeEncodeError, p, reads)
  | Some pat =>
      match Re.compile pat with
      | None => (ExpectRaised ReError, p, reads)
      | Some r => expect_loop r p reads
      end
  end.

End Pexpect.

(** ** prompt_toolkit: the application that [run] configures *)
Module Editor.

Inductive EditingMode : Type := VI | EMACS.

(** The state of the running application that the key bindings of [run]
    can reach through [event.app]. *)
Record Application : Type := {
  editing_mode : EditingMode;
  buffer_text : text;
  cursor_position : nat
}.

(** The binding of [f4] in [run]: toggle between Emacs and Vi mode. *)
Definition toggle_mode (app : Application) : Application :=
  match editing_mode app with
  | VI => {| editing_mode := EMACS;
             buffer_text := buffer_text app;
             cursor_position := cursor_position app |}
  | EMACS => {| editing_mode := VI;
                buffer_text := buffer_text app;
                cursor_position := cursor_position app |}
  end.

(** [bottom_toolbar] in [run]: the text shown for the current mode. *)
Definition bottom_toolbar (app : Application) : text :=
  u " [F4] "
  ++ match editing_mode app with VI => u "Vi" | EMACS => u "Emacs" end
  ++ u " ".

(** What the user does at one prompt.  [f4] and [c-d] are bound by [run];
    [c-c] and the other keys keep prompt_toolkit's bindings: typed text
    goes into the buffer at the cursor, and the accepting key (Enter, or
    Alt-Enter with [multiline]) returns the buffer. *)
Inductive key_press : Type :=
| KeyF4
| KeyControlD
| KeyControlC
| Typed (s : text)
| Accept.

Definition insert_text (s : text) (app : Application) : Application :=
  {| editing_mode := editing_mode app;
     buffer_text := firstn (cursor_position app) (buffer_text app)
                    ++ s ++ skipn (cursor_position app) (buffer_text app);
     cursor_position := cursor_position app + length s |}.

Inductive prompt_result : Type :=
| Returned (answer : option text)     (* [None] after [event.app.exit()] *)
| PromptRaised (e : exception)
| PromptWaiting.                      (* no more keys: still editing *)

(** [session.prompt(...)] with the bindings of [run], on the keys pressed. *)
Fixpoint prompt (keys : list key_press) (app : Application)
  : prompt_result * Application :=
  match keys with
  | [] => (PromptWaiting, app)
  | KeyF4 :: keys' => prompt keys' (toggle_mode app)
  | KeyControlD :: _ => (Returned None, app)
  | KeyControlC :: _ => (PromptRaised KeyboardInterrupt, app)
  | Typed s :: keys' => prompt keys' (insert_text s app)
  | Accept :: _ => (Returned (Some (buffer_text app)), app)
  end.

End Editor.

(** ** [repl.py] *)

(** [prompt_continuation(width, line_number, is_soft_wrap)]: the prefix of
    a continuation line in multi-line entry. *)
Definition prompt_continuation (width line_number : nat) (is_soft_wrap : bool)
  : text :=
  repeat (N_of_ascii "."%char) width.

(** The arguments that the session loop reads. *)
Record Args : Type := {
  cmd_prompt : text;
  multiline : bool
}.

(** [run(session, cmd_prompt, ml, synlexer)]: one prompt, with an empty
    buffer, in the editing mode that the session is in. *)
Definition run (mode : Editor.EditingMode) (keys : list Editor.key_press)
  : Editor.prompt_result * Editor.EditingMode :=
  let '(res, app) :=
    Editor.prompt keys {| Editor.editing_mode := mode;
                          Editor.buffer_text := [];
                          Editor.cursor_position := 0 |} in
  (res, Editor.editing_mode app).

(** What the world does during one turn of the loop after the prompt was
    found: the keys the user presses, and whether the child still takes
    input when the line is sent. *)
Record turn : Type := {
  keys : list Editor.key_press;
  pipe_broken : bool
}.

(** The calls of [main] that reach the terminal or the child. *)
Inductive event : Type :=
| Print (s : text)                       (* print(s) *)
| Prompt (message : text) (ml : bool)    (* the editor shows its prompt *)
| SendLine (s : text)                    (* p.sendline(s), delivered *)
| Close.                                 (* p.close() *)

Inductive outcome : Type :=
| Finished                   (* left by [break] / [main] returned *)
| Raised (e : exception)     (* an exception left [main] *)
| Waiting.                   (* blocked: the child or the user is silent *)

Definition exit_line : text := u "exit".

Definition farewell : text :=
  Eval vm_compute in
    match Py.utf8_decode (b "Tạm biệt.") with Some t => t | None => [] end.

(** The [while True] loop of [main], lines 110-116. *)
Fixpoint session_loop (args : Args) (turns : list turn)
    (p : Pexpect.spawn) (mode : Editor.EditingMode)
    (reads : list Pexpect.read_result) {struct turns}
  : list event * outcome :=
  match Pexpect.expect (cmd_prompt args) p reads with
  | (Pexpect.ExpectRaised e, _, _) => ([], Raised e)
  | (Pexpect.ExpectWaiting, _, _) => ([], Waiting)
  | (Pexpect.Matched, p', reads') =>
      match Py.utf8_decode (Pexpect.before p') with
      | None => ([], Raised UnicodeDecodeError)
      | Some decoded =>
          let shown := [Print (Py.strip decoded);
                        Prompt (cmd_prompt args) (multiline args)] in
          match turns with
          | [] => (shown, Waiting)
          | t :: turns' =>
              match run mode (keys t) with
              | (Editor.PromptWaiting, _) => (shown, Waiting)
              | (Editor.PromptRaised e, _) => (shown, Raised e)
              | (Editor.Returned answer, mode') =>
                  match answer with
                  | None => (shown, Finished)
                  | Some line =>
                      if text_eqb line exit_line then (shown, Finished)
                      else if pipe_broken t then (shown, Raised OSError)
                      else
                        let '(tr, out) :=
                          session_loop args turns' p' mode' reads' in
                        (shown ++ SendLine line :: tr, out)
                  end
              end
          end
      end
  end.

(** What follows the loop in [main], lines 118-119. *)
Definition after_loop (res : list event * outcome) : list event * outcome :=
  match res with
  | (tr, Finished) => (tr ++ [Print farewell; Close], Finished)
  | other => other
  end.

(** [main] from the first turn of the loop on, in any state of the child
    and of the editor. *)
Definition main_from (args : Args) (turns : list turn)
    (p : Pexpect.spawn) (mode : Editor.EditingMode)
    (reads : list Pexpect.read_result) : list event * outcome :=
  after_loop (session_loop args turns p mode reads).

(** [main]: a fresh child and a fresh prompt session (Emacs mode). *)
Definition main (args : Args) (turns : list turn)
    (reads : list Pexpect.read_result) : list event * outcome :=
  main_from args turns Pexpect.fresh Editor.EMACS reads.

(** ** Pure substring search

    The search that a literal prompt calls for, as [bytes.find] does it:
    the offset of the first place where [needle] occurs in [hay]. *)

Fixpoint starts_with (needle hay : bytes) : bool :=
  match needle, hay with
  | [], _ => true
  | _ :: _, [] => false
  | c :: needle', x :: hay' => Ascii.eqb x c && starts_with needle' hay'
  end.

Fixpoint find (needle hay : bytes) : option nat :=
  if starts_with needle hay then Some 0
  else match hay with
       | [] => None
       | _ :: hay' => option_map S (find needle hay')
       end.

(** A prompt without any character that is special in a pattern. *)
Definition plain (pattern : text) : bool :=
  forallb (fun c => (c <? 128)%N && negb (Re.is_special (ascii_of_N c))) pattern.

(** The pattern of regular expressions that matches [pat] byte for byte. *)
Definition literal (pat : bytes) : Re.regex := Re.cat_of (map Re.Lit pat).

(** ** Feeding a stream to the prompt matcher

    The child writes [chunks], one per read, and closes its output.  The
    result of [p.expect(pattern)] on a fresh child: [p.before] and whether
    the prompt was found. *)
Definition emitted_matched
    (res : Pexpect.expect_result * Pexpect.spawn * list Pexpect.read_result)
  : bytes * bool :=
  match res with
  | (Pexpect.Matched, p, _) => (Pexpect.before p, true)
  | (_, p, _) => (Pexpect.before p, false)
  end.

Definition feed (pattern : text) (chunks : list bytes) : bytes * bool :=
  emitted_matched
    (Pexpect.expect pattern Pexpect.fresh
       (map Pexpect.Data chunks ++ [Pexpect.ReadEOF])).

(** How often [p.close()] is called in a trace. *)
Fixpoint count_close (tr : list event) : nat :=
  match tr with
  | [] => 0
  | Close :: tr' => S (count_close tr')
  | _ :: tr' => count_close tr'
  end.

(** The lines delivered to the child in a trace, in order. *)
Fixpoint sent_lines (tr : list event) : list text :=
  match tr with
  | [] => []
  | SendLine s :: tr' => s :: sent_lines tr'
  | _ :: tr' => sent_lines tr'
  end.

(** ** [load_lexer] *)

(** [s] cut at its first full stop: what precedes it and what follows. *)
Fixpoint break_at_dot (s : text) : option (text * text) :=
  match s with
  | [] => None
  | c :: s' =>
      if (c =? 46)%N then Some ([], s')
      else match break_at_dot s' with
           | Some (x, y) => Some (c :: x, y)
           | None => None
           end
  end.

(** [s.rsplit('.', 1)]: [s] cut at its last full stop, or [s] alone. *)
Definition rsplit_dot (s : text) : list text :=
  match break_at_dot (rev s) with
  | Some (x, y) => [rev y; rev x]
  | None => [s]
  end.

Inductive load_error : Type :=
| IndexError           (* the subscript [1] of a one-element list *)
| ImportRaised         (* whatever [importlib.import_module] raises *)
| AttributeError.      (* [getattr] on a module without that name *)

Inductive load_result : Type :=
| Loaded (modname clsname : text)   (* the lexer class of that module *)
| LoadRaised (e : load_error).

(** The line that [load_lexer] prints. *)
Definition load_message (clsname modname : text) : text :=
  u "Syntaxhervorhebungsklasse " ++ clsname ++ u " aus Modul " ++ modname
  ++ u " laden." ++ [10%N].

(** [load_lexer(clsname)], lines 40-44.  [import_module] says which
    modules can be imported and which names each of them has. *)
Definition load_lexer (import_module : text -> option (text -> bool))
    (clsname : text) : list event * load_result :=
  match nth_error (rsplit_dot clsname) 0 with
  | None => ([], LoadRaised IndexError)
  | Some modname =>
      match nth_error (rsplit_dot clsname) 1 with
      | None => ([], LoadRaised IndexError)
      | Some cls =>
          let shown := [Print (load_message cls modname)] in
          match import_module modname with
          | None => (shown, LoadRaised ImportRaised)
          | Some names =>
              if names cls then (shown, Loaded modname cls)
              else (shown, LoadRaised AttributeError)
          end
      end
  end.

(** ** Reading traces and turns *)

(** The texts passed to [print] in a trace, in order. *)
Fixpoint printed (tr : list event) : list text :=
  match tr with
  | [] => []
  | Print s :: tr' => s :: printed tr'
  | _ :: tr' => printed tr'
  end.

(** A trace made of turns [print], prompt, [sendline], the last of which
    may stop after the prompt; every prompt is the one of [args]. *)
Fixpoint alternates (args : Args) (tr : list event) : bool :=
  match tr with
  | [] => true
  | Print _ :: tr1 =>
      match tr1 with
      | Prompt message ml :: tr2 =>
          text_eqb message (cmd_prompt args)
          && Bool.eqb ml (multiline args)
          && match tr2 with
             | [] => true
             | SendLine _ :: tr3 => alternates args tr3
             | _ => false
             end
      | _ => false
      end
  | _ => false
  end.

(** What the user answers in a turn (the editing mode has no part in it). *)
Definition answer_of (t : turn) : Editor.prompt_result :=
  fst (run Editor.EMACS (keys t)).

(** The other editing mode. *)
Definition other_mode (m : Editor.EditingMode) : Editor.EditingMode :=
  match m with
  | Editor.VI => Editor.EMACS
  | Editor.EMACS => Editor.VI
  end.

(** The keys that leave the prompt open: [f4] and typed text. *)
Definition editing_key (k : Editor.key_press) : bool :=
  match k with
  | Editor.KeyF4 | Editor.Typed _ => true
  | _ => false
  end.

(** How often [f4] is pressed before the key that ends the prompt. *)
Fixpoint f4_presses (ks : list Editor.key_press) : nat :=
  match ks with
  | Editor.KeyF4 :: ks' => S (f4_presses ks')
  | Editor.Typed _ :: ks' => f4_presses ks'
  | _ => 0
  end.

(** A code point that [bytes.decode] can give: below U+110000 and not a
    surrogate. *)
Definition scalar_value (c : N) : bool :=
  ((c <? 1114112) && negb ((55296 <=? c) && (c <=? 57343)))%N.

(** A pattern with a backslash before each of its special characters. *)
Definition escape (pat : bytes) : bytes :=
  flat_map (fun c => if Re.is_special c then ["\"%char; c] else [c]) pat.

(** ** Sample sessions *)

(** The arguments for an R console: prompt [> ], single-line entry. *)
Definition r_args : Args := {| cmd_prompt := u "> "; multiline := false |}.

(** A turn in which the user types [s] and accepts it, the child alive. *)
Definition one_line (s : string) : turn :=
  {| keys := [Editor.Typed (u s); Editor.Accept]; pipe_broken := false |}.

(** The same with a child that no longer takes input. *)
Definition one_line_broken (s : string) : turn :=
  {| keys := [Editor.Typed (u s); Editor.Accept]; pipe_broken := true |}.

(** A last line of output, [bye] and a line feed. *)
Definition bye : bytes := b "bye" ++ [ascii_of_nat 10].

(** An indented line of output, ended by carriage return and line feed. *)
Definition indented : bytes :=
  b "  x = 1" ++ [ascii_of_nat 13; ascii_of_nat 10].

(** * Examples *)

Example db_prompt_scenario :
  feed (u "db> ") [b "db>"] = (b "db>", false)
  /\ feed (u "db> ") [b "db> "] = ([], true)
  /\ feed (u "db> ") [b "db>"; b " "] = ([], true).
Proof. repeat split. Qed.

Example compile_alt :
  Re.compile (b "b|abc")
  = Some (Re.Or (Re.Cat (Re.Lit "b"%char) Re.Empty)
                (Re.Cat (Re.Lit "a"%char) (Re.Cat (Re.Lit "b"%char) (Re.Cat (Re.Lit "c"%char) Re.Empty)))).
Proof. reflexivity. Qed.

Example decode_farewell :
  Py.utf8_decode (b "Tạm biệt.")
  = Some [84; 7841; 109; 32; 98; 105; 7879; 116; 46]%N.
Proof. reflexivity. Qed.

Example decode_invalid_byte :
  Py.utf8_decode (b "ok" ++ [ascii_of_nat 255]) = None.
Proof. reflexivity. Qed.

Example decode_overlong :
  Py.utf8_decode [ascii_of_nat 192; ascii_of_nat 128] = None.
Proof. reflexivity. Qed.

Example strip_example : Py.strip (u "  a b  ") = u "a b".
Proof. reflexivity. Qed.

Example session_example :
  main {| cmd_prompt := u "> "; multiline := false |}
       [ {| keys := [Editor.Typed (u "1+1"); Editor.Accept]; pipe_broken := false |};
         {| keys := [Editor.KeyF4; Editor.Typed (u "exit"); Editor.Accept];
            pipe_broken := false |} ]
       [ Pexpect.Data (b "R 4.3" ++ b "> "); Pexpect.Data (b "[1] 2 >");
         Pexpect.Data (b " ") ]
  = ([Print (u "R 4.3"); Prompt (u "> ") false; SendLine (u "1+1");
      Print (u "[1] 2"); Prompt (u "> ") false; Print farewell; Close],
     Finished).
Proof. reflexivity. Qed.

(** * Properties of the pattern compiler and matcher *)

Section PlainPatterns.

Lemma parse_plain_byte c rest cur stack :
  Re.is_special c = false ->
  Re.parse (c :: rest) cur stack
  = Re.parse rest (Re.push_item (Re.Lit c) cur) stack.
Proof.
  intros Hc. pose proof Hc as Hs.
  unfold Re.is_special, Re.specials in Hs. cbn in Hs.
  repeat match type of Hs with
         | (_ || _)%bool = false =>
             apply orb_false_elim in Hs; let H := fresh "Hne" in destruct Hs as [H Hs]
         end.
  cbn [Re.parse].
  repeat match goal with
         | H : Ascii.eqb c _ = false |- _ => rewrite H; clear H
         end.
  rewrite Hc. reflexivity.
Qed.

Lemma parse_plain pat : forall cur,
  forallb (fun c => negb (Re.is_special c)) pat = true ->
  Re.branches cur = [] ->
  Re.parse pat cur []
  = Some (Re.cat_of (rev (map fst (Re.items cur)) ++ map Re.Lit pat)).
Proof.
  induction pat as [|c pat IH]; intros cur Hp Hb.
  - cbn. unfold Re.close_frame, Re.branch_of. rewrite Hb, app_nil_r. reflexivity.
  - cbn in Hp. apply andb_true_iff in Hp as [Hc Hp].
    apply negb_true_iff in Hc.
    rewrite parse_plain_byte by exact Hc.
    rewrite IH by (exact Hp || exact Hb).
    cbn. rewrite <- app_assoc. reflexivity.
Qed.

Lemma compile_plain pat :
  forallb (fun c => negb (Re.is_special c)) pat = true ->
  Re.compile pat = Some (literal pat).
Proof.
  intros Hp. unfold Re.compile. rewrite parse_plain by (exact Hp || reflexivity).
  reflexivity.
Qed.

Lemma match_literal pat : forall s k,
  Re.match_here (literal pat) s k
  = if starts_with pat s then k (skipn (length pat) s) else None.
Proof.
  induction pat as [|c pat IH]; intros s k.
  - reflexivity.
  - destruct s as [|x s]; [reflexivity|].
    cbn. destruct (Ascii.eqb x c); [|reflexivity].
    apply IH.
Qed.

Lemma starts_with_length needle : forall hay,
  starts_with needle hay = true -> length needle <= length hay.
Proof.
  induction needle as [|c needle IH]; intros [|x hay] H; cbn in *;
    try discriminate; try lia.
  apply andb_true_iff in H as [_ H]. apply IH in H. lia.
Qed.

Lemma starts_with_app needle : forall hay more,
  starts_with needle hay = true -> starts_with needle (hay ++ more) = true.
Proof.
  induction needle as [|c needle IH]; intros [|x hay] more H; cbn in *;
    try reflexivity; try discriminate.
  apply andb_true_iff in H as [Hx H]. rewrite Hx. cbn. apply IH, H.
Qed.

Lemma starts_with_app_false needle : forall hay more,
  starts_with needle hay = false -> length needle <= length hay ->
  starts_with needle (hay ++ more) = false.
Proof.
  induction needle as [|c needle IH]; intros [|x hay] more H Hl; cbn in *;
    try discriminate; try lia.
  destruct (Ascii.eqb x c); cbn in *; [|reflexivity].
  apply IH; [exact H | lia].
Qed.

Lemma starts_with_iff needle : forall hay,
  starts_with needle hay = true <-> exists post, hay = needle ++ post.
Proof.
  induction needle as [|c needle IH]; intros hay; cbn.
  - split; [intros _; exists hay; reflexivity | reflexivity].
  - destruct hay as [|x hay].
    + split; [discriminate | intros [post H]; discriminate].
    + rewrite andb_true_iff, IH. split.
      * intros [Hx [post ->]]. apply Ascii.eqb_eq in Hx. subst. now exists post.
      * intros [post H]. cbn in H. injection H as -> ->. split.
        -- apply Ascii.eqb_refl.
        -- now exists post.
Qed.

Lemma search_literal pat : forall s pos,
  Re.search_from (literal pat) pos s
  = option_map (fun i => (pos + i, pos + i + length pat)) (find pat s).
Proof.
  induction s as [|x s IH]; intros pos.
  - cbn. rewrite match_literal. destruct (starts_with pat []) eqn:E.
    + apply starts_with_length in E. cbn in *.
      assert (length pat = 0) as -> by lia. cbn. f_equal. f_equal; lia.
    + reflexivity.
  - cbn [Re.search_from find]. rewrite match_literal.
    destruct (starts_with pat (x :: s)) eqn:E.
    + apply starts_with_length in E. rewrite length_skipn. cbn [option_map].
      f_equal. f_equal; lia.
    + rewrite IH. destruct (find pat s); cbn; [|reflexivity].
      f_equal. f_equal; lia.
Qed.

End PlainPatterns.

(** ** The substring search *)

Lemma find_unfold needle hay :
  find needle hay
  = if starts_with needle hay then Some 0
    else match hay with
         | [] => None
         | _ :: hay' => option_map S (find needle hay')
         end.
Proof. destruct hay; reflexivity. Qed.

Lemma find_bound needle : forall hay i,
  find needle hay = Some i -> i + length needle <= length hay.
Proof.
  induction hay as [|x hay IH]; intros i H; cbn [find] in H.
  - destruct (starts_with needle []) eqn:E; [|discriminate].
    injection H as <-. apply starts_with_length in E. lia.
  - destruct (starts_with needle (x :: hay)) eqn:E.
    + injection H as <-. apply starts_with_length in E. lia.
    + destruct (find needle hay) as [j|] eqn:F; [|discriminate].
      injection H as <-. specialize (IH j eq_refl). cbn. lia.
Qed.

Lemma find_app needle : forall hay more i,
  find needle hay = Some i -> find needle (hay ++ more) = Some i.
Proof.
  induction hay as [|x hay IH]; intros more i H.
  - cbn [find] in H. destruct (starts_with needle []) eqn:E; [|discriminate].
    injection H as <-. apply starts_with_length in E.
    destruct needle; [|cbn in E; lia]. destruct more; reflexivity.
  - pose proof (find_bound _ _ _ H) as Hb.
    cbn [find] in H. cbn [app find].
    destruct (starts_with needle (x :: hay)) eqn:E.
    + change (x :: hay ++ more) with ((x :: hay) ++ more).
      rewrite starts_with_app by exact E. exact H.
    + destruct (find needle hay) as [j|] eqn:F; [|discriminate].
      injection H as <-.
      change (x :: hay ++ more) with ((x :: hay) ++ more).
      rewrite starts_with_app_false by (exact E || (cbn in *; lia)).
      rewrite (IH more j eq_refl). reflexivity.
Qed.

(** [find] returns the offset of an occurrence ... *)
Lemma find_occurrence needle : forall hay i,
  find needle hay = Some i ->
  exists post, hay = firstn i hay ++ needle ++ post.
Proof.
  induction hay as [|x hay IH]; intros i H; cbn [find] in H.
  - destruct (starts_with needle []) eqn:E; [|discriminate].
    injection H as <-. apply starts_with_iff in E. exact E.
  - destruct (starts_with needle (x :: hay)) eqn:E.
    + injection H as <-. apply starts_with_iff in E. exact E.
    + destruct (find needle hay) as [j|] eqn:F; [|discriminate].
      injection H as <-. destruct (IH j eq_refl) as [post Hp].
      exists post. cbn. f_equal. exact Hp.
Qed.

(** ... the first one ... *)
Lemma find_leftmost needle : forall hay i pre post,
  find needle hay = Some i -> hay = pre ++ needle ++ post -> i <= length pre.
Proof.
  induction hay as [|x hay IH]; intros i pre post H Hocc; cbn [find] in H.
  - destruct (starts_with needle []) eqn:E; [|discriminate].
    injection H as <-. lia.
  - destruct (starts_with needle (x :: hay)) eqn:E.
    + injection H as <-. lia.
    + destruct (find needle hay) as [j|] eqn:F; [|discriminate].
      injection H as <-. destruct pre as [|y pre].
      * cbn in Hocc. assert (starts_with needle (x :: hay) = true) as E'
          by (apply starts_with_iff; now exists post).
        congruence.
      * cbn in Hocc. injection Hocc as _ Hocc.
        specialize (IH j pre post eq_refl Hocc). cbn. lia.
Qed.

(** ... and finds one whenever there is one. *)
Lemma find_complete needle : forall pre post,
  find needle (pre ++ needle ++ post) <> None.
Proof.
  induction pre as [|y pre IH]; intros post; cbn [app]; rewrite find_unfold.
  - assert (starts_with needle (needle ++ post) = true) as ->
      by (apply starts_with_iff; now exists post).
    discriminate.
  - destruct (starts_with needle (y :: pre ++ needle ++ post)); [discriminate|].
    specialize (IH post). destruct (find needle (pre ++ needle ++ post));
      [discriminate | contradiction].
Qed.

Lemma do_search_literal pat window :
  Pexpect.do_search (literal pat) window
  = match find pat window with
    | Some i => Some {| Pexpect.buffer := skipn (i + length pat) window;
                        Pexpect.before := firstn i window |}
    | None => None
    end.
Proof.
  unfold Pexpect.do_search, Re.search. rewrite search_literal.
  destruct (find pat window); reflexivity.
Qed.

Lemma plain_encodes pattern :
  plain pattern = true ->
  Pexpect.coerce_expect_string pattern = Some (map ascii_of_N pattern)
  /\ Re.compile (map ascii_of_N pattern) = Some (literal (map ascii_of_N pattern)).
Proof.
  intros Hp. unfold plain in Hp. rewrite forallb_forall in Hp. split.
  - unfold Pexpect.coerce_expect_string, Py.ascii_encode.
    replace (forallb (fun c => (c <? 128)%N) pattern) with true; [reflexivity|].
    symmetry. apply forallb_forall. intros c Hc.
    apply Hp in Hc. apply andb_true_iff in Hc. apply Hc.
  - apply compile_plain. apply forallb_forall. intros c Hc.
    apply in_map_iff in Hc as [n [<- Hn]].
    apply Hp in Hn. apply andb_true_iff in Hn. apply Hn.
Qed.

(** ** Feeding in chunks *)

Section ChunkInvariance.

(** A compiled pattern whose first match in a buffer stays the first match
    when more bytes follow. *)
Variable r : Re.regex.
Hypothesis stable : forall window more p,
  Pexpect.do_search r window = Some p ->
  exists p', Pexpect.do_search r (window ++ more) = Some p'
             /\ Pexpect.before p' = Pexpect.before p.

Lemma read_loop_whole buf bf chunk :
  emitted_matched
    (Pexpect.read_loop r {| Pexpect.buffer := buf; Pexpect.before := bf |}
       [Pexpect.Data chunk; Pexpect.ReadEOF])
  = match Pexpect.do_search r (buf ++ chunk) with
    | Some p => (Pexpect.before p, true)
    | None => (buf ++ chunk, false)
    end.
Proof.
  cbn. unfold Pexpect.new_data. cbn.
  destruct (Pexpect.do_search r (buf ++ chunk)); reflexivity.
Qed.

Lemma read_loop_chunks chunks : forall buf bf,
  Pexpect.do_search r buf = None ->
  emitted_matched
    (Pexpect.read_loop r {| Pexpect.buffer := buf; Pexpect.before := bf |}
       (map Pexpect.Data chunks ++ [Pexpect.ReadEOF]))
  = emitted_matched
      (Pexpect.read_loop r {| Pexpect.buffer := buf; Pexpect.before := bf |}
         [Pexpect.Data (concat chunks); Pexpect.ReadEOF]).
Proof.
  induction chunks as [|c cs IH]; intros buf bf Hnone.
  - rewrite read_loop_whole. cbn. rewrite app_nil_r, Hnone. reflexivity.
  - rewrite read_loop_whole. cbn [map app concat Pexpect.read_loop].
    unfold Pexpect.new_data. cbn [Pexpect.buffer Pexpect.before].
    destruct (Pexpect.do_search r (buf ++ c)) as [p|] eqn:E.
    + destruct (stable _ (concat cs) _ E) as [p' [E' Hb]].
      rewrite app_assoc, E', Hb. reflexivity.
    + rewrite IH by exact E. rewrite read_loop_whole, app_assoc. reflexivity.
Qed.

Lemma expect_loop_chunks chunks :
  emitted_matched
    (Pexpect.expect_loop r Pexpect.fresh
       (map Pexpect.Data chunks ++ [Pexpect.ReadEOF]))
  = emitted_matched
      (Pexpect.expect_loop r Pexpect.fresh
         [Pexpect.Data (concat chunks); Pexpect.ReadEOF]).
Proof.
  unfold Pexpect.expect_loop, Pexpect.existing_data, Pexpect.fresh.
  cbn [Pexpect.buffer].
  destruct (Pexpect.do_search r []) eqn:E; [reflexivity|].
  apply read_loop_chunks, E.
Qed.

End ChunkInvariance.

Lemma literal_stable pat window more p :
  Pexpect.do_search (literal pat) window = Some p ->
  exists p', Pexpect.do_search (literal pat) (window ++ more) = Some p'
             /\ Pexpect.before p' = Pexpect.before p.
Proof.
  rewrite !do_search_literal. destruct (find pat window) as [i|] eqn:F; [|discriminate].
  intros H. injection H as <-. rewrite (find_app _ _ more _ F).
  eexists. split; [reflexivity|]. cbn.
  apply find_bound in F. rewrite firstn_app.
  replace (i - length window) with 0 by lia. cbn. apply app_nil_r.
Qed.

(** * The prompt matcher *)

(** C1, as the code has it: for every prompt without a character that is
    special in a regular expression, and for every way of splitting the
    child's output into chunks, [p.expect] reading the chunks one by one
    gives the same [before] and the same answer to "was the prompt found"
    as [p.expect] reading the whole output in one chunk. *)
Theorem chunk_invariance_plain_prompt (pattern : text) (chunks : list bytes) :
  plain pattern = true ->
  feed pattern chunks = feed pattern [concat chunks].
Proof.
  intros Hp. destruct (plain_encodes pattern Hp) as [Henc Hcomp].
  unfold feed, Pexpect.expect. rewrite Henc, Hcomp.
  rewrite (expect_loop_chunks _ (literal_stable _) chunks).
  reflexivity.
Qed.

Lemma chunk_invariance_plain_prompt_witness :
  plain (u "> ") = true
  /\ feed (u "> ") [b "x>"; b " y"] = feed (u "> ") [concat [b "x>"; b " y"]].
Proof.
  split; [reflexivity|].
  apply (chunk_invariance_plain_prompt (u "> ") [b "x>"; b " y"]).
  reflexivity.
Defined.

(** C1 as stated fails: the prompt is a regular expression, and with the
    pattern [b|abc] the chunks [ab], [c] give [before = a] where the whole
    stream [abc] gives an empty [before]. *)
Lemma chunk_invariance_fails_for_regex :
  feed (u "b|abc") [b "ab"; b "c"] = (b "a", true)
  /\ feed (u "b|abc") [concat [b "ab"; b "c"]] = ([], true)
  /\ feed (u "b|abc") [b "ab"; b "c"] <> feed (u "b|abc") [concat [b "ab"; b "c"]].
Proof.
  split; [reflexivity|]. split; [reflexivity|].
  vm_compute. discriminate.
Qed.

(** C8, as the code has it: a prompt without a character that is special
    in a regular expression is matched by pure substring search: the match
    step of [p.expect] finds the first occurrence of the prompt in the
    window, [before] is what precedes it and the buffer keeps what follows;
    in particular nothing shorter than the prompt matches. *)
Theorem plain_prompt_substring_search (pattern : text) :
  plain pattern = true ->
  exists r,
    Pexpect.coerce_expect_string pattern = Some (map ascii_of_N pattern)
    /\ Re.compile (map ascii_of_N pattern) = Some r
    /\ (forall window,
          Pexpect.do_search r window
          = match find (map ascii_of_N pattern) window with
            | Some i =>
                Some {| Pexpect.buffer := skipn (i + length pattern) window;
                        Pexpect.before := firstn i window |}
            | None => None
            end)
    /\ (forall window,
          length window < length pattern -> Pexpect.do_search r window = None).
Proof.
  intros Hp. destruct (plain_encodes pattern Hp) as [Henc Hcomp].
  exists (literal (map ascii_of_N pattern)).
  split; [exact Henc|]. split; [exact Hcomp|].
  assert (forall window,
          Pexpect.do_search (literal (map ascii_of_N pattern)) window
          = match find (map ascii_of_N pattern) window with
            | Some i =>
                Some {| Pexpect.buffer := skipn (i + length pattern) window;
                        Pexpect.before := firstn i window |}
            | None => None
            end) as Hsearch.
  { intros window. rewrite do_search_literal, length_map. reflexivity. }
  split; [exact Hsearch|].
  intros window Hlen. rewrite Hsearch.
  destruct (find (map ascii_of_N pattern) window) as [i|] eqn:F; [|reflexivity].
  apply find_bound in F. rewrite length_map in F. lia.
Qed.

Lemma plain_prompt_substring_search_witness :
  plain (u "db> ") = true
  /\ exists r,
       Pexpect.coerce_expect_string (u "db> ") = Some (map ascii_of_N (u "db> "))
       /\ Re.compile (map ascii_of_N (u "db> ")) = Some r
       /\ (forall window,
             Pexpect.do_search r window
             = match find (map ascii_of_N (u "db> ")) window with
               | Some i =>
                   Some {| Pexpect.buffer := skipn (i + length (u "db> ")) window;
                           Pexpect.before := firstn i window |}
               | None => None
               end)
       /\ (forall window,
             length window < length (u "db> ") ->
             Pexpect.do_search r window = None).
Proof.
  split; [reflexivity|].
  apply (plain_prompt_substring_search (u "db> ")). reflexivity.
Defined.

(** C8 as stated fails: the characters of the prompt that are special in a
    regular expression are not matched literally.  The prompt [(gdb) ] is
    read as a group followed by a space: it is not found in the output
    [(gdb) ], in which it occurs at offset 0.  The prompt [sure?] is read
    with an optional [e]: it is found in [sur], a proper prefix of it. *)
Lemma gdb_prompt_not_matched_literally :
  find (b "(gdb) ") (b "(gdb) ") = Some 0
  /\ feed (u "(gdb) ") [b "(gdb) "] = (b "(gdb) ", false)
  /\ feed (u "sure?") [b "sur"] = ([], true).
Proof. repeat split. Qed.

(** * The session loop *)

Lemma text_eqb_eq x y : text_eqb x y = true <-> x = y.
Proof.
  unfold text_eqb. destruct (list_eq_dec N.eq_dec x y); split;
    intros; congruence.
Qed.

(** One turn of the loop, written out. *)
Lemma session_loop_unfold args turns p mode reads :
  session_loop args turns p mode reads
  = match Pexpect.expect (cmd_prompt args) p reads with
    | (Pexpect.ExpectRaised e, _, _) => ([], Raised e)
    | (Pexpect.ExpectWaiting, _, _) => ([], Waiting)
    | (Pexpect.Matched, p', reads') =>
        match Py.utf8_decode (Pexpect.before p') with
        | None => ([], Raised UnicodeDecodeError)
        | Some decoded =>
            let shown := [Print (Py.strip decoded);
                          Prompt (cmd_prompt args) (multiline args)] in
            match turns with
            | [] => (shown, Waiting)
            | t :: turns' =>
                match run mode (keys t) with
                | (Editor.PromptWaiting, _) => (shown, Waiting)
                | (Editor.PromptRaised e, _) => (shown, Raised e)
                | (Editor.Returned answer, mode') =>
                    match answer with
                    | None => (shown, Finished)
                    | Some line =>
                        if text_eqb line exit_line then (shown, Finished)
                        else if pipe_broken t then (shown, Raised OSError)
                        else
                          let '(tr, out) :=
                            session_loop args turns' p' mode' reads' in
                          (shown ++ SendLine line :: tr, out)
                    end
                end
            end
        end
    end.
Proof. destruct turns; reflexivity. Qed.

(** ** C2: decoding *)

(** C2, as the code has it: [p.before.decode('utf-8')] is strict.  When the
    output before the prompt is not valid UTF-8, [UnicodeDecodeError]
    leaves [main]: nothing is printed for that chunk and the session ends
    there. *)
Theorem invalid_utf8_raises
    (args : Args) (turns : list turn) (p p' : Pexpect.spawn)
    (mode : Editor.EditingMode) (reads reads' : list Pexpect.read_result) :
  Pexpect.expect (cmd_prompt args) p reads = (Pexpect.Matched, p', reads') ->
  Py.utf8_decode (Pexpect.before p') = None ->
  main_from args turns p mode reads = ([], Raised UnicodeDecodeError).
Proof.
  intros Hexp Hdec. unfold main_from.
  rewrite session_loop_unfold, Hexp, Hdec. reflexivity.
Qed.

Lemma invalid_utf8_raises_witness :
  Pexpect.expect (cmd_prompt r_args) Pexpect.fresh
    [Pexpect.Data (ascii_of_nat 255 :: b "> ")]
  = (Pexpect.Matched,
     {| Pexpect.buffer := []; Pexpect.before := [ascii_of_nat 255] |}, [])
  /\ Py.utf8_decode [ascii_of_nat 255] = None
  /\ main_from r_args [one_line "1+1"] Pexpect.fresh Editor.EMACS
       [Pexpect.Data (ascii_of_nat 255 :: b "> ")]
     = ([], Raised UnicodeDecodeError).
Proof.
  split; [reflexivity|]. split; [reflexivity|].
  apply (invalid_utf8_raises r_args [one_line "1+1"] Pexpect.fresh
           {| Pexpect.buffer := []; Pexpect.before := [ascii_of_nat 255] |}
           Editor.EMACS [Pexpect.Data (ascii_of_nat 255 :: b "> ")] []);
    reflexivity.
Defined.

(** C2 as stated fails: a chunk with the invalid byte 0xFF before the
    prompt is not printed with a substitute; the run ends with
    [UnicodeDecodeError]. *)
Lemma invalid_utf8_is_not_replaced :
  main r_args [one_line "1+1"] [Pexpect.Data (ascii_of_nat 255 :: b "> ")]
  = ([], Raised UnicodeDecodeError).
Proof. reflexivity. Qed.

(** ** C3: end of the child's output *)

(** [p.expect] raises [EOF] exactly as one expects: when the child closes
    its output and the pattern was found neither in the buffer nor after
    any of the chunks read until then. *)
Lemma read_loop_eof r chunks : forall p rest,
  (forall n, n <= length chunks ->
     Pexpect.do_search r (Pexpect.buffer p ++ concat (firstn n chunks)) = None) ->
  Pexpect.read_loop r p (map Pexpect.Data chunks ++ Pexpect.ReadEOF :: rest)
  = (Pexpect.ExpectRaised EOF,
     {| Pexpect.buffer := [];
        Pexpect.before := Pexpect.buffer p ++ concat chunks |},
     rest).
Proof.
  induction chunks as [|c cs IH]; intros p rest Hnone.
  - cbn. rewrite app_nil_r. reflexivity.
  - cbn [map app Pexpect.read_loop]. unfold Pexpect.new_data.
    pose proof (Hnone 1 ltac:(cbn; lia)) as H1.
    cbn in H1. rewrite app_nil_r in H1. rewrite H1.
    rewrite IH.
    + cbn. rewrite <- app_assoc. reflexivity.
    + intros n Hn. cbn [Pexpect.buffer]. rewrite <- app_assoc.
      apply (Hnone (S n)). cbn. lia.
Qed.

(** C3, as the code has it: when the child closes its output before the
    prompt is found, [p.expect] raises [EOF] and nothing catches it: the
    loop stops at once, so no further input is forwarded, but the closing
    message is not printed, [p.close()] is not called, and the exception
    leaves [main]. *)
Theorem eof_before_prompt_raises
    (args : Args) (turns : list turn) (p p' : Pexpect.spawn)
    (mode : Editor.EditingMode) (reads reads' : list Pexpect.read_result) :
  Pexpect.expect (cmd_prompt args) p reads
  = (Pexpect.ExpectRaised EOF, p', reads') ->
  main_from args turns p mode reads = ([], Raised EOF).
Proof.
  intros Hexp. unfold main_from.
  rewrite session_loop_unfold, Hexp. reflexivity.
Qed.

Lemma eof_before_prompt_raises_witness :
  Pexpect.expect (cmd_prompt r_args) Pexpect.fresh
    [Pexpect.Data bye; Pexpect.ReadEOF]
  = (Pexpect.ExpectRaised EOF,
     {| Pexpect.buffer := []; Pexpect.before := bye |}, [])
  /\ main_from r_args [one_line "1+1"] Pexpect.fresh Editor.EMACS
       [Pexpect.Data bye; Pexpect.ReadEOF]
     = ([], Raised EOF).
Proof.
  split; [reflexivity|].
  apply (eof_before_prompt_raises r_args [one_line "1+1"] Pexpect.fresh
           {| Pexpect.buffer := []; Pexpect.before := bye |}
           Editor.EMACS [Pexpect.Data bye; Pexpect.ReadEOF] []).
  reflexivity.
Defined.

(** C3 as stated fails: the child prints [bye] and exits; the run of
    [main] prints no closing message, does not close the handle and ends
    with the exception [EOF]. *)
Lemma eof_is_not_a_graceful_exit :
  main r_args [one_line "1+1"] [Pexpect.Data bye; Pexpect.ReadEOF]
  = ([], Raised EOF).
Proof. reflexivity. Qed.

(** ** Traces of the loop *)

Lemma count_close_app tr1 tr2 :
  count_close (tr1 ++ tr2) = count_close tr1 + count_close tr2.
Proof.
  induction tr1 as [|e tr1 IH]; [reflexivity|].
  destruct e; cbn; rewrite IH; reflexivity.
Qed.

Lemma sent_lines_app tr1 tr2 :
  sent_lines (tr1 ++ tr2) = sent_lines tr1 ++ sent_lines tr2.
Proof.
  induction tr1 as [|e tr1 IH]; [reflexivity|].
  destruct e; cbn; rewrite IH; reflexivity.
Qed.

(** Whatever the world does, the loop itself never closes the child, never
    sends the line [exit], and when it is left by [break] the last thing it
    did was to show the prompt. *)
Lemma session_loop_trace args turns : forall p mode reads tr out,
  session_loop args turns p mode reads = (tr, out) ->
  count_close tr = 0
  /\ existsb (fun s => text_eqb s exit_line) (sent_lines tr) = false
  /\ (out = Finished ->
      exists tr0 shown,
        tr = tr0 ++ [Print shown; Prompt (cmd_prompt args) (multiline args)]).
Proof.
  induction turns as [|t turns IH]; intros p mode reads tr out H;
    rewrite session_loop_unfold in H;
    repeat match type of H with
           | context [match ?x with _ => _ end] => destruct x eqn:?
           end;
    injection H as <- <-;
    try (split; [reflexivity | split; [reflexivity | discriminate]]);
    try (split; [reflexivity | split; [reflexivity | intros _;
           eexists [], _; reflexivity]]).
  match goal with
  | E : session_loop _ _ _ _ _ = _ |- _ => apply IH in E as (Hc & Hs & Hf)
  end.
  cbn [app count_close sent_lines existsb].
  split; [exact Hc|]. split.
  - match goal with E : text_eqb _ exit_line = false |- _ => rewrite E end.
    exact Hs.
  - intros Hout. destruct (Hf Hout) as (tr0 & shown & ->).
    eexists (_ :: _ :: _ :: tr0), shown. reflexivity.
Qed.

(** ** C4: closing the child *)

(** C4, as the code has it: when the loop is left by [break] (the line
    [exit] or the editor's exit action), [main] prints the closing message
    and calls [p.close()] exactly once, as its last step; on every other
    path (an exception leaving the loop, or a run still blocked) it has
    not called [p.close()]. *)
Theorem close_once_after_break
    (args : Args) (turns : list turn) (p : Pexpect.spawn)
    (mode : Editor.EditingMode) (reads : list Pexpect.read_result) :
  match main_from args turns p mode reads with
  | (tr, Finished) =>
      count_close tr = 1
      /\ exists tr0, tr = tr0 ++ [Print farewell; Close] /\ count_close tr0 = 0
  | (tr, _) => count_close tr = 0
  end.
Proof.
  unfold main_from.
  destruct (session_loop args turns p mode reads) as [tr out] eqn:E.
  apply session_loop_trace in E as (Hc & _ & _).
  destruct out; cbn [after_loop]; try exact Hc.
  split.
  - rewrite count_close_app, Hc. reflexivity.
  - exists tr. split; [reflexivity | exact Hc].
Qed.

(** C4 as stated fails: the child answers one line and then closes its
    output; [main] ends with [EOF] and has not closed the handle. *)
Lemma eof_leaves_child_unclosed :
  main r_args [one_line "q()"; one_line "1+1"]
    [Pexpect.Data (b "> "); Pexpect.ReadEOF]
  = ([Print []; Prompt (u "> ") false; SendLine (u "q()")], Raised EOF)
  /\ count_close
       (fst (main r_args [one_line "q()"; one_line "1+1"]
               [Pexpect.Data (b "> "); Pexpect.ReadEOF])) = 0.
Proof. split; reflexivity. Qed.

(** ** C5: sending to a child that is gone *)

(** C5, as the code has it: when [p.sendline(answer)] raises because the
    child no longer takes input, nothing catches the error: [OSError]
    leaves [main], which neither prints the closing message nor closes
    the handle. *)
Theorem broken_pipe_raises
    (args : Args) (t : turn) (turns : list turn) (p p' : Pexpect.spawn)
    (mode mode' : Editor.EditingMode)
    (reads reads' : list Pexpect.read_result) (decoded line : text) :
  Pexpect.expect (cmd_prompt args) p reads = (Pexpect.Matched, p', reads') ->
  Py.utf8_decode (Pexpect.before p') = Some decoded ->
  run mode (keys t) = (Editor.Returned (Some line), mode') ->
  text_eqb line exit_line = false ->
  pipe_broken t = true ->
  main_from args (t :: turns) p mode reads
  = ([Print (Py.strip decoded); Prompt (cmd_prompt args) (multiline args)],
     Raised OSError).
Proof.
  intros Hexp Hdec Hrun Hline Hpipe. unfold main_from.
  rewrite session_loop_unfold, Hexp, Hdec, Hrun, Hline, Hpipe. reflexivity.
Qed.

Lemma broken_pipe_raises_witness :
  Pexpect.expect (cmd_prompt r_args) Pexpect.fresh [Pexpect.Data (b "> ")]
  = (Pexpect.Matched, Pexpect.fresh, [])
  /\ Py.utf8_decode (Pexpect.before Pexpect.fresh) = Some []
  /\ run Editor.EMACS (keys (one_line_broken "1+1"))
     = (Editor.Returned (Some (u "1+1")), Editor.EMACS)
  /\ text_eqb (u "1+1") exit_line = false
  /\ pipe_broken (one_line_broken "1+1") = true
  /\ main_from r_args [one_line_broken "1+1"] Pexpect.fresh Editor.EMACS
       [Pexpect.Data (b "> ")]
     = ([Print (Py.strip []); Prompt (u "> ") false], Raised OSError).
Proof.
  repeat (split; [reflexivity|]).
  apply (broken_pipe_raises r_args (one_line_broken "1+1") [] Pexpect.fresh
           Pexpect.fresh Editor.EMACS Editor.EMACS
           [Pexpect.Data (b "> ")] [] [] (u "1+1"));
    reflexivity.
Defined.

(** C5 as stated fails: the user submits [1+1] to a child that no longer
    takes input; the run does not end as after the end of the stream or a
    normal exit, [OSError] leaves [main]. *)
Lemma broken_pipe_is_not_caught :
  main r_args [one_line_broken "1+1"] [Pexpect.Data (b "> ")]
  = ([Print []; Prompt (u "> ") false], Raised OSError).
Proof. reflexivity. Qed.

(** ** C6: leaving the loop *)

(** With the bindings of [run], [c-d] ends the prompt with [None] in
    either editing mode, whatever was typed or toggled before. *)
Lemma control_d_returns_none edits : forall app rest,
  Forall (fun k => k = Editor.KeyF4 \/ exists s, k = Editor.Typed s) edits ->
  fst (Editor.prompt (edits ++ Editor.KeyControlD :: rest) app)
  = Editor.Returned None.
Proof.
  induction edits as [|k edits IH]; intros app rest Hall; [reflexivity|].
  inversion Hall as [|? ? [-> | [s ->]] Hrest]; subst; cbn; apply IH, Hrest.
Qed.

(** C6: in every state of the child and in either editing mode, once the
    prompt is up, an answer that is [None] (the editor's exit action) or
    the line [exit] ends the loop in that same turn: [main] prints the
    closing message, closes the child and returns, whatever turns and
    output would have followed. *)
Theorem exit_leaves_loop
    (args : Args) (t : turn) (turns : list turn) (p p' : Pexpect.spawn)
    (mode mode' : Editor.EditingMode)
    (reads reads' : list Pexpect.read_result)
    (decoded : text) (answer : option text) :
  Pexpect.expect (cmd_prompt args) p reads = (Pexpect.Matched, p', reads') ->
  Py.utf8_decode (Pexpect.before p') = Some decoded ->
  run mode (keys t) = (Editor.Returned answer, mode') ->
  answer = None \/ answer = Some exit_line ->
  main_from args (t :: turns) p mode reads
  = ([Print (Py.strip decoded); Prompt (cmd_prompt args) (multiline args);
      Print farewell; Close],
     Finished).
Proof.
  intros Hexp Hdec Hrun Hans. unfold main_from.
  rewrite session_loop_unfold, Hexp, Hdec, Hrun.
  destruct Hans as [-> | ->]; reflexivity.
Qed.

Lemma exit_leaves_loop_witness :
  Pexpect.expect (cmd_prompt r_args) Pexpect.fresh [Pexpect.Data (b "> ")]
  = (Pexpect.Matched, Pexpect.fresh, [])
  /\ Py.utf8_decode (Pexpect.before Pexpect.fresh) = Some []
  /\ run Editor.VI (keys (one_line "exit"))
     = (Editor.Returned (Some (u "exit")), Editor.VI)
  /\ (Some (u "exit") = None \/ Some (u "exit") = Some exit_line)
  /\ main_from r_args [one_line "exit"; one_line "1+1"] Pexpect.fresh
       Editor.VI [Pexpect.Data (b "> ")]
     = ([Print (Py.strip []); Prompt (u "> ") false; Print farewell; Close],
        Finished).
Proof.
  split; [reflexivity|]. split; [reflexivity|]. split; [reflexivity|].
  split; [right; reflexivity|].
  apply (exit_leaves_loop r_args (one_line "exit") [one_line "1+1"]
           Pexpect.fresh Pexpect.fresh Editor.VI Editor.VI
           [Pexpect.Data (b "> ")] [] [] (Some (u "exit")));
    try reflexivity.
  right; reflexivity.
Defined.

(** ** C7: what is printed before the prompt *)

Lemma lstrip_split s :
  exists lead, s = lead ++ Py.lstrip s /\ forallb Py.isspace lead = true.
Proof.
  induction s as [|c s (lead & Hs & Hl)].
  - exists []. split; reflexivity.
  - cbn [Py.lstrip]. destruct (Py.isspace c) eqn:E.
    + exists (c :: lead). split.
      * cbn. f_equal. exact Hs.
      * cbn. rewrite E. exact Hl.
    + exists []. split; reflexivity.
Qed.

Lemma rstrip_split s :
  exists trail, s = Py.rstrip s ++ trail /\ forallb Py.isspace trail = true.
Proof.
  unfold Py.rstrip. destruct (lstrip_split (rev s)) as (lead & Hs & Hl).
  exists (rev lead). split.
  - rewrite <- rev_app_distr, <- Hs, rev_involutive. reflexivity.
  - apply forallb_forall. intros c Hc. apply in_rev in Hc.
    rewrite forallb_forall in Hl. apply Hl, Hc.
Qed.

Lemma strip_split s :
  exists lead trail,
    s = lead ++ Py.strip s ++ trail
    /\ forallb Py.isspace lead = true /\ forallb Py.isspace trail = true.
Proof.
  destruct (lstrip_split s) as (lead & Hs & Hl).
  destruct (rstrip_split (Py.lstrip s)) as (trail & Hr & Ht).
  exists lead, trail. unfold Py.strip. rewrite <- Hr. auto.
Qed.

(** C7, as the code has it: when the prompt is found and the output before
    it decodes, the first thing [main] does is to print that output with
    the white space at its two ends removed ([print] ends it with a line
    feed), and then the editor shows its prompt; between its two ends the
    output is printed as it was received. *)
Theorem prints_stripped_output_before_prompt
    (args : Args) (turns : list turn) (p p' : Pexpect.spawn)
    (mode : Editor.EditingMode) (reads reads' : list Pexpect.read_result)
    (decoded : text) :
  Pexpect.expect (cmd_prompt args) p reads = (Pexpect.Matched, p', reads') ->
  Py.utf8_decode (Pexpect.before p') = Some decoded ->
  exists rest out lead trail,
    main_from args turns p mode reads
    = (Print (Py.strip decoded)
         :: Prompt (cmd_prompt args) (multiline args) :: rest, out)
    /\ decoded = lead ++ Py.strip decoded ++ trail
    /\ forallb Py.isspace lead = true
    /\ forallb Py.isspace trail = true.
Proof.
  intros Hexp Hdec.
  destruct (strip_split decoded) as (lead & trail & Hsplit & Hlead & Htrail).
  assert (exists rest out,
            main_from args turns p mode reads
            = (Print (Py.strip decoded)
                 :: Prompt (cmd_prompt args) (multiline args) :: rest, out))
    as (rest & out & Hmain).
  { unfold main_from. rewrite session_loop_unfold, Hexp, Hdec.
    cbv zeta.
    repeat match goal with
           | |- context [match ?x with _ => _ end] =>
               destruct x; cbn [after_loop app]
           end;
      eexists _, _; reflexivity. }
  exists rest, out, lead, trail. auto.
Qed.

Lemma prints_stripped_output_before_prompt_witness :
  Pexpect.expect (cmd_prompt r_args) Pexpect.fresh
    [Pexpect.Data (indented ++ b "> ")]
  = (Pexpect.Matched,
     {| Pexpect.buffer := []; Pexpect.before := indented |}, [])
  /\ Py.utf8_decode indented = Some (u "  x = 1" ++ [13; 10]%N)
  /\ exists rest out lead trail,
       main_from r_args [] Pexpect.fresh Editor.EMACS
         [Pexpect.Data (indented ++ b "> ")]
       = (Print (Py.strip (u "  x = 1" ++ [13; 10]%N))
            :: Prompt (u "> ") false :: rest, out)
       /\ u "  x = 1" ++ [13; 10]%N
          = lead ++ Py.strip (u "  x = 1" ++ [13; 10]%N) ++ trail
       /\ forallb Py.isspace lead = true
       /\ forallb Py.isspace trail = true.
Proof.
  split; [reflexivity|]. split; [reflexivity|].
  apply (prints_stripped_output_before_prompt r_args [] Pexpect.fresh
           {| Pexpect.buffer := []; Pexpect.before := indented |}
           Editor.EMACS [Pexpect.Data (indented ++ b "> ")] []
           (u "  x = 1" ++ [13; 10]%N));
    reflexivity.
Defined.

(** C7 as stated fails: the child prints an indented line, carriage
    return, line feed and the prompt; what [main] prints is the line
    without its indentation and without the carriage return, so what
    reaches the terminal is not the output as received. *)
Lemma output_is_not_printed_verbatim :
  Py.utf8_decode indented = Some (u "  x = 1" ++ [13; 10]%N)
  /\ main r_args [] [Pexpect.Data (indented ++ b "> ")]
     = ([Print (u "x = 1"); Prompt (u "> ") false], Waiting)
  /\ Py.print_output (u "x = 1") <> u "  x = 1" ++ [13; 10]%N.
Proof.
  split; [reflexivity|]. split; [reflexivity|].
  vm_compute. discriminate.
Qed.

(** ** C9: the mode toggle *)

(** C9: the binding of [f4] switches Vi to Emacs and Emacs to Vi, and
    leaves the text of the buffer and the position of the cursor as they
    were. *)
Theorem toggle_mode_keeps_buffer_and_cursor (app : Editor.Application) :
  Editor.buffer_text (Editor.toggle_mode app) = Editor.buffer_text app
  /\ Editor.cursor_position (Editor.toggle_mode app)
     = Editor.cursor_position app
  /\ Editor.editing_mode (Editor.toggle_mode app)
     = match Editor.editing_mode app with
       | Editor.VI => Editor.EMACS
       | Editor.EMACS => Editor.VI
       end.
Proof.
  unfold Editor.toggle_mode. destruct (Editor.editing_mode app); cbn; auto.
Qed.

(** Pressing [f4] at some point of the editing does not change the answer
    that the prompt returns. *)
Lemma toggle_does_not_change_answer keys : forall app,
  fst (Editor.prompt keys (Editor.toggle_mode app))
  = fst (Editor.prompt keys app).
Proof.
  induction keys as [|k keys IH]; intros app; [reflexivity|].
  destruct k; cbn [Editor.prompt fst]; try reflexivity.
  - rewrite !IH. reflexivity.
  - assert (Editor.insert_text s (Editor.toggle_mode app)
            = Editor.toggle_mode (Editor.insert_text s app)) as ->.
    { unfold Editor.insert_text, Editor.toggle_mode.
      destruct (Editor.editing_mode app) eqn:E; cbn; rewrite ?E; reflexivity. }
    apply IH.
  - unfold Editor.toggle_mode. destruct (Editor.editing_mode app); reflexivity.
Qed.

(** ** C10: the line [exit] stays with the wrapper *)

(** C10: in every run of [main], no line sent to the child is the line
    [exit]; and when [main] returns, the last things it did were to show
    the prompt, to print the closing message and to close the child, so
    nothing was sent between the last prompt and the closing. *)
Theorem exit_line_never_sent
    (args : Args) (turns : list turn) (p : Pexpect.spawn)
    (mode : Editor.EditingMode) (reads : list Pexpect.read_result) :
  existsb (fun s => text_eqb s exit_line)
    (sent_lines (fst (main_from args turns p mode reads))) = false
  /\ match main_from args turns p mode reads with
     | (tr, Finished) =>
         exists tr0 shown,
           tr = tr0 ++ [Print shown;
                        Prompt (cmd_prompt args) (multiline args);
                        Print farewell; Close]
     | _ => True
     end.
Proof.
  unfold main_from.
  destruct (session_loop args turns p mode reads) as [tr out] eqn:E.
  apply session_loop_trace in E as (_ & Hs & Hf).
  destruct out; cbn [after_loop fst]; try (split; [exact Hs | exact I]).
  split.
  - rewrite sent_lines_app. cbn [sent_lines]. rewrite app_nil_r. exact Hs.
  - destruct (Hf eq_refl) as (tr0 & shown & ->).
    exists tr0, shown. rewrite <- app_assoc. reflexivity.
Qed.

(** * More about the session loop *)

Lemma text_eqb_refl x : text_eqb x x = true.
Proof. apply text_eqb_eq. reflexivity. Qed.

(** The loop does its three calls in strict turns: every trace of the loop
    is a sequence of [print], prompt, [sendline], possibly cut after a
    prompt, and the prompt shown is always the one given in the arguments:
    no line is sent before the prompt was found and shown, and no two
    lines are sent in a row. *)
Theorem loop_alternates
    (args : Args) (turns : list turn) (p : Pexpect.spawn)
    (mode : Editor.EditingMode) (reads : list Pexpect.read_result) :
  alternates args (fst (session_loop args turns p mode reads)) = true.
Proof.
  revert p mode reads.
  assert (alternates args [] = true) as Hnil by reflexivity.
  assert (forall s, alternates args
            [Print s; Prompt (cmd_prompt args) (multiline args)] = true)
    as Hcut.
  { intros s. cbn. rewrite text_eqb_refl, Bool.eqb_reflx. reflexivity. }
  induction turns as [|t turns IH]; intros p mode reads;
    rewrite session_loop_unfold;
    repeat match goal with
           | |- context [match ?x with _ => _ end] =>
               lazymatch x with
               | session_loop _ _ _ _ _ => fail
               | _ => destruct x eqn:?
               end
           end;
    cbn [fst]; try exact Hnil; try apply Hcut.
  match goal with
  | |- context [session_loop args turns ?a ?b ?c] =>
      specialize (IH a b c);
      destruct (session_loop args turns a b c) as [tr out]
  end.
  cbn [fst app alternates] in *.
  rewrite text_eqb_refl, Bool.eqb_reflx. exact IH.
Qed.

Lemma run_mode_irrelevant mode ks :
  fst (run mode ks) = fst (run Editor.EMACS ks).
Proof.
  destruct mode; [|reflexivity].
  unfold run.
  pose proof (toggle_does_not_change_answer ks
                {| Editor.editing_mode := Editor.EMACS;
                   Editor.buffer_text := [];
                   Editor.cursor_position := 0 |}) as H.
  cbn in H.
  destruct (Editor.prompt ks _) as [r1 a1] in H |- *.
  destruct (Editor.prompt ks _) as [r2 a2] in H |- *.
  exact H.
Qed.

(** The child receives the user's lines, unchanged and in order: the lines
    sent in a run are exactly the answers of the first turns, one line per
    turn, nothing added, dropped or reordered. *)
Theorem lines_sent_are_the_answers
    (args : Args) (turns : list turn) (p : Pexpect.spawn)
    (mode : Editor.EditingMode) (reads : list Pexpect.read_result) :
  exists k,
    k <= length turns
    /\ map (fun line => Editor.Returned (Some line))
         (sent_lines (fst (session_loop args turns p mode reads)))
       = map answer_of (firstn k turns).
Proof.
  revert p mode reads.
  induction turns as [|t turns IH]; intros p mode reads;
    rewrite session_loop_unfold;
    repeat match goal with
           | |- context [match ?x with _ => _ end] =>
               lazymatch x with
               | session_loop _ _ _ _ _ => fail
               | _ => destruct x eqn:?
               end
           end;
    cbn [fst]; try (exists 0; split; [lia | reflexivity]).
  match goal with
  | |- context [session_loop args turns ?a ?b ?c] =>
      destruct (IH a b c) as (k & Hk & Hsent);
      destruct (session_loop args turns a b c) as [tr out]
  end.
  exists (S k). split; [cbn; lia|].
  cbn [fst app sent_lines map firstn] in *. rewrite Hsent. f_equal.
  unfold answer_of. rewrite <- (run_mode_irrelevant mode).
  match goal with H : run mode (keys t) = _ |- _ => rewrite H end.
  reflexivity.
Qed.

(** ** The bindings of [run] *)

Lemma prompt_mode ks : forall app,
  Editor.editing_mode (snd (Editor.prompt ks app))
  = if Nat.even (f4_presses ks) then Editor.editing_mode app
    else other_mode (Editor.editing_mode app).
Proof.
  induction ks as [|k ks IH]; intros app; [reflexivity|].
  destruct k; cbn [Editor.prompt f4_presses snd]; try reflexivity.
  - rewrite IH. rewrite Nat.even_succ, <- Nat.negb_even.
    unfold Editor.toggle_mode.
    destruct (Nat.even (f4_presses ks)), (Editor.editing_mode app);
      reflexivity.
  - rewrite IH. reflexivity.
Qed.

(** The editing mode chosen with [f4] stays for the next prompt: a prompt
    ends in the mode it began in when [f4] was pressed an even number of
    times, and in the other mode otherwise. *)
Theorem mode_after_run (mode : Editor.EditingMode)
    (ks : list Editor.key_press) :
  snd (run mode ks)
  = if Nat.even (f4_presses ks) then mode else other_mode mode.
Proof.
  unfold run.
  pose proof (prompt_mode ks {| Editor.editing_mode := mode;
                                Editor.buffer_text := [];
                                Editor.cursor_position := 0 |}) as H.
  destruct (Editor.prompt ks _) as [res app]. exact H.
Qed.

(** The toolbar tells the two editing modes apart and shows nothing else
    of the application: two states have the same toolbar exactly when they
    are in the same mode. *)
Theorem toolbar_shows_the_mode (a1 a2 : Editor.Application) :
  Editor.bottom_toolbar a1 = Editor.bottom_toolbar a2
  <-> Editor.editing_mode a1 = Editor.editing_mode a2.
Proof.
  unfold Editor.bottom_toolbar.
  destruct (Editor.editing_mode a1), (Editor.editing_mode a2); split;
    intros H; try reflexivity; try discriminate;
    vm_compute in H; discriminate.
Qed.

(** With the bindings of [run], [c-d] ends the turn with the answer
    [None] in either mode, whatever was typed or toggled before: the text
    in the buffer is dropped. *)
Theorem control_d_drops_the_buffer (mode : Editor.EditingMode)
    (edits rest : list Editor.key_press) :
  forallb editing_key edits = true ->
  fst (run mode (edits ++ Editor.KeyControlD :: rest)) = Editor.Returned None.
Proof.
  intros Hall. unfold run.
  pose proof (control_d_returns_none edits
                {| Editor.editing_mode := mode;
                   Editor.buffer_text := [];
                   Editor.cursor_position := 0 |} rest) as H.
  destruct (Editor.prompt _ _) as [res app]. apply H.
  apply Forall_forall. intros k Hk.
  rewrite forallb_forall in Hall. specialize (Hall k Hk).
  destruct k; try discriminate; [left; reflexivity | right; eauto].
Qed.

Lemma control_d_drops_the_buffer_witness :
  forallb editing_key [Editor.Typed (u "q()"); Editor.KeyF4] = true
  /\ fst (run Editor.VI
            ([Editor.Typed (u "q()"); Editor.KeyF4]
             ++ Editor.KeyControlD :: [Editor.Accept]))
     = Editor.Returned None.
Proof.
  split; [reflexivity|].
  apply (control_d_drops_the_buffer Editor.VI
           [Editor.Typed (u "q()"); Editor.KeyF4] [Editor.Accept]).
  reflexivity.
Defined.

Lemma control_c_raises edits : forall app rest,
  forallb editing_key edits = true ->
  fst (Editor.prompt (edits ++ Editor.KeyControlC :: rest) app)
  = Editor.PromptRaised KeyboardInterrupt.
Proof.
  induction edits as [|k edits IH]; intros app rest Hall; [reflexivity|].
  cbn in Hall. apply andb_true_iff in Hall as [Hk Hall].
  destruct k; try discriminate; cbn; apply IH, Hall.
Qed.

(** ** Ways out of [main] *)

(** [c-c] at the prompt is not handled: [KeyboardInterrupt] leaves [main]
    after the output was printed and the prompt shown; what was typed is
    not sent, the closing message is not printed and the child is not
    closed. *)
Theorem control_c_leaves_main
    (args : Args) (t : turn) (turns : list turn) (p p' : Pexpect.spawn)
    (mode : Editor.EditingMode) (reads reads' : list Pexpect.read_result)
    (decoded : text) (edits rest : list Editor.key_press) :
  Pexpect.expect (cmd_prompt args) p reads = (Pexpect.Matched, p', reads') ->
  Py.utf8_decode (Pexpect.before p') = Some decoded ->
  keys t = edits ++ Editor.KeyControlC :: rest ->
  forallb editing_key edits = true ->
  main_from args (t :: turns) p mode reads
  = ([Print (Py.strip decoded); Prompt (cmd_prompt args) (multiline args)],
     Raised KeyboardInterrupt).
Proof.
  intros Hexp Hdec Hkeys Hall. unfold main_from.
  rewrite session_loop_unfold, Hexp, Hdec, Hkeys. unfold run.
  pose proof (control_c_raises edits
                {| Editor.editing_mode := mode;
                   Editor.buffer_text := [];
                   Editor.cursor_position := 0 |} rest Hall) as H.
  destruct (Editor.prompt _ _) as [res app]. cbn in H. subst res.
  reflexivity.
Qed.

Lemma control_c_leaves_main_witness :
  Pexpect.expect (cmd_prompt r_args) Pexpect.fresh [Pexpect.Data (b "> ")]
  = (Pexpect.Matched, Pexpect.fresh, [])
  /\ Py.utf8_decode (Pexpect.before Pexpect.fresh) = Some []
  /\ keys {| keys := [Editor.Typed (u "1+"); Editor.KeyControlC];
             pipe_broken := false |}
     = [Editor.Typed (u "1+")] ++ Editor.KeyControlC :: []
  /\ forallb editing_key [Editor.Typed (u "1+")] = true
  /\ main_from r_args
       [{| keys := [Editor.Typed (u "1+"); Editor.KeyControlC];
           pipe_broken := false |}]
       Pexpect.fresh Editor.EMACS [Pexpect.Data (b "> ")]
     = ([Print (Py.strip []); Prompt (u "> ") false],
        Raised KeyboardInterrupt).
Proof.
  repeat (split; [reflexivity|]).
  apply (control_c_leaves_main r_args
           {| keys := [Editor.Typed (u "1+"); Editor.KeyControlC];
              pipe_broken := false |}
           [] Pexpect.fresh Pexpect.fresh Editor.EMACS
           [Pexpect.Data (b "> ")] [] [] [Editor.Typed (u "1+")] []);
    reflexivity.
Defined.

(** A prompt with a character outside ASCII cannot be used: the first
    [p.expect] raises [UnicodeEncodeError] before anything is read from
    the child or printed. *)
Theorem non_ascii_prompt_raises
    (args : Args) (turns : list turn) (p : Pexpect.spawn)
    (mode : Editor.EditingMode) (reads : list Pexpect.read_result) :
  existsb (fun c => (128 <=? c)%N) (cmd_prompt args) = true ->
  main_from args turns p mode reads = ([], Raised UnicodeEncodeError).
Proof.
  intros Hc. unfold main_from. rewrite session_loop_unfold.
  unfold Pexpect.expect, Pexpect.coerce_expect_string, Py.ascii_encode.
  replace (forallb (fun c => (c <? 128)%N) (cmd_prompt args)) with false;
    [reflexivity|].
  symmetry. apply not_true_is_false. intros Hall.
  apply existsb_exists in Hc as (c & Hin & Hge).
  rewrite forallb_forall in Hall. specialize (Hall c Hin).
  apply N.leb_le in Hge. apply N.ltb_lt in Hall. lia.
Qed.

Lemma non_ascii_prompt_raises_witness :
  existsb (fun c => (128 <=? c)%N)
    (cmd_prompt {| cmd_prompt := [955; 62; 32]%N; multiline := false |}) = true
  /\ main_from {| cmd_prompt := [955; 62; 32]%N; multiline := false |}
       [one_line "1+1"] Pexpect.fresh Editor.EMACS [Pexpect.Data (b "> ")]
     = ([], Raised UnicodeEncodeError).
Proof.
  split; [reflexivity|].
  apply (non_ascii_prompt_raises
           {| cmd_prompt := [955; 62; 32]%N; multiline := false |}
           [one_line "1+1"] Pexpect.fresh Editor.EMACS
           [Pexpect.Data (b "> ")]).
  reflexivity.
Defined.

Lemma expect_empty_prompt p reads :
  Pexpect.expect [] p reads
  = (Pexpect.Matched,
     {| Pexpect.buffer := Pexpect.buffer p; Pexpect.before := [] |}, reads).
Proof.
  unfold Pexpect.expect. cbn.
  unfold Pexpect.expect_loop, Pexpect.existing_data, Pexpect.do_search,
    Re.search.
  destruct (Pexpect.buffer p) as [|x s]; cbn; [reflexivity|].
  rewrite Nat.sub_diag. reflexivity.
Qed.

(** With an empty prompt every [p.expect] succeeds at once, with nothing
    before the match and without reading from the child: whatever the
    child writes, the loop only ever prints empty lines. *)
Theorem empty_prompt_shows_nothing
    (args : Args) (turns : list turn) (p : Pexpect.spawn)
    (mode : Editor.EditingMode) (reads : list Pexpect.read_result) :
  cmd_prompt args = [] ->
  forallb (fun s => text_eqb s [])
    (printed (fst (session_loop args turns p mode reads))) = true.
Proof.
  intros Hempty. revert p mode reads.
  induction turns as [|t turns IH]; intros p mode reads;
    rewrite session_loop_unfold, Hempty, expect_empty_prompt;
    cbn [Pexpect.before Py.utf8_decode]; cbv zeta;
    repeat match goal with
           | |- context [match ?x with _ => _ end] =>
               lazymatch x with
               | session_loop _ _ _ _ _ => fail
               | _ => destruct x eqn:?
               end
           end;
    cbn [fst]; try reflexivity.
  match goal with
  | |- context [session_loop args turns ?a ?b ?c] =>
      specialize (IH a b c);
      destruct (session_loop args turns a b c) as [tr out]
  end.
  cbn [fst app printed forallb] in *. exact IH.
Qed.

Lemma empty_prompt_shows_nothing_witness :
  cmd_prompt {| cmd_prompt := []; multiline := false |} = []
  /\ forallb (fun s => text_eqb s [])
       (printed
          (fst (session_loop {| cmd_prompt := []; multiline := false |}
                  [one_line "1+1"; one_line "2"] Pexpect.fresh Editor.EMACS
                  [Pexpect.Data (b "[1] 2")]))) = true.
Proof.
  split; [reflexivity|].
  apply (empty_prompt_shows_nothing {| cmd_prompt := []; multiline := false |}
           [one_line "1+1"; one_line "2"] Pexpect.fresh Editor.EMACS
           [Pexpect.Data (b "[1] 2")]).
  reflexivity.
Defined.

(** [main] returns only when the user asks for it: a run that ends
    normally has a turn whose answer is [None] or the line [exit]. *)
Theorem returns_only_on_request
    (args : Args) (turns : list turn) (p : Pexpect.spawn)
    (mode : Editor.EditingMode) (reads : list Pexpect.read_result) :
  snd (main_from args turns p mode reads) = Finished ->
  existsb (fun t => match answer_of t with
                    | Editor.Returned None => true
                    | Editor.Returned (Some line) => text_eqb line exit_line
                    | _ => false
                    end) turns = true.
Proof.
  unfold main_from.
  assert (forall res, snd (after_loop res) = Finished -> snd res = Finished)
    as Hafter.
  { intros [tr out]. destruct out; cbn; congruence. }
  intros H. apply Hafter in H. clear Hafter. revert p mode reads H.
  induction turns as [|t turns IH]; intros p mode reads;
    rewrite session_loop_unfold;
    repeat match goal with
           | |- context [match ?x with _ => _ end] =>
               lazymatch x with
               | session_loop _ _ _ _ _ => fail
               | _ => destruct x eqn:?
               end
           end;
    cbn [snd]; try discriminate; intros H; cbn [existsb]; unfold answer_of;
    try (rewrite <- (run_mode_irrelevant mode);
         match goal with E : run mode (keys t) = _ |- _ => rewrite E end;
         cbn [fst];
         try match goal with E : text_eqb _ exit_line = _ |- _ => rewrite E end;
         cbn [orb]);
    try reflexivity.
  match goal with
  | H : context [session_loop args turns ?a ?b ?c] |- _ =>
      apply (IH a b c);
      destruct (session_loop args turns a b c) as [tr out]; exact H
  end.
Qed.

Lemma returns_only_on_request_witness :
  snd (main_from r_args [one_line "1+1"; one_line "exit"] Pexpect.fresh
         Editor.EMACS [Pexpect.Data (b "> "); Pexpect.Data (b "[1] 2> ")])
  = Finished
  /\ existsb (fun t => match answer_of t with
                       | Editor.Returned None => true
                       | Editor.Returned (Some line) => text_eqb line exit_line
                       | _ => false
                       end) [one_line "1+1"; one_line "exit"] = true.
Proof.
  split; [reflexivity|].
  apply (returns_only_on_request r_args [one_line "1+1"; one_line "exit"]
           Pexpect.fresh Editor.EMACS
           [Pexpect.Data (b "> "); Pexpect.Data (b "[1] 2> ")]).
  reflexivity.
Defined.

(** * More about [p.expect] *)







Lemma read_loop_matched_search r reads : forall p p' reads',
  Pexpect.read_loop r p reads = (Pexpect.Matched, p', reads') ->
  exists window, Pexpect.do_search r window = Some p'.
Proof.
  induction reads as [|rd reads IH]; intros p p' reads' H;
    cbn [Pexpect.read_loop] in H; [discriminate|].
  destruct rd as [chunk| |]; try discriminate.
  unfold Pexpect.new_data in H.
  destruct (Pexpect.do_search r (Pexpect.buffer p ++ chunk)) as [q|] eqn:E.
  - injection H as <- <-. eauto.
  - eapply IH, H.
Qed.

Lemma find_firstn_none pat window i :
  find pat window = Some i -> 0 < length pat ->
  find pat (firstn i window) = None.
Proof.
  intros F Hlen.
  destruct (find pat (firstn i window)) as [j|] eqn:G; [|reflexivity].
  pose proof (find_bound _ _ _ G) as Hb.
  pose proof (firstn_le_length i window) as Hl.
  apply (find_app _ _ (skipn i window)) in G.
  rewrite firstn_skipn in G. rewrite F in G. injection G as ->. lia.
Qed.

(** With a prompt free of special characters, the output printed for a
    turn never contains the prompt: [before] stops at the first place
    where the prompt occurs. *)
Theorem before_has_no_prompt (pattern : text) (p p' : Pexpect.spawn)
    (reads reads' : list Pexpect.read_result) :
  plain pattern = true ->
  0 < length pattern ->
  Pexpect.expect pattern p reads = (Pexpect.Matched, p', reads') ->
  find (map ascii_of_N pattern) (Pexpect.before p') = None.
Proof.
  intros Hp Hlen. destruct (plain_encodes pattern Hp) as [Henc Hcomp].
  unfold Pexpect.expect. rewrite Henc, Hcomp.
  unfold Pexpect.expect_loop, Pexpect.existing_data. intros H.
  assert (exists window,
            Pexpect.do_search (literal (map ascii_of_N pattern)) window
            = Some p') as [window Hw].
  { destruct (Pexpect.do_search _ (Pexpect.buffer p)) as [q|] eqn:E.
    - injection H as <- <-. eauto.
    - eapply read_loop_matched_search, H. }
  rewrite do_search_literal in Hw.
  destruct (find (map ascii_of_N pattern) window) as [i|] eqn:F;
    [|discriminate].
  injection Hw as <-. cbn. apply find_firstn_none; [exact F|].
  rewrite length_map. exact Hlen.
Qed.

Lemma before_has_no_prompt_witness :
  plain (u "> ") = true
  /\ 0 < length (u "> ")
  /\ Pexpect.expect (u "> ") Pexpect.fresh
       [Pexpect.Data (b "a >"); Pexpect.Data (b "b> > ")]
     = (Pexpect.Matched,
        {| Pexpect.buffer := b "> "; Pexpect.before := b "a >b" |}, [])
  /\ find (map ascii_of_N (u "> ")) (b "a >b") = None.
Proof.
  split; [reflexivity|]. split; [cbn; lia|]. split; [reflexivity|].
  apply (before_has_no_prompt (u "> ") Pexpect.fresh
           {| Pexpect.buffer := b "> "; Pexpect.before := b "a >b" |}
           [Pexpect.Data (b "a >"); Pexpect.Data (b "b> > ")] []).
  - reflexivity.
  - cbn; lia.
  - reflexivity.
Defined.

Lemma special_not_alnum c : Re.is_special c = true -> Re.is_alnum c = false.
Proof.
  unfold Re.is_special, Re.specials. cbn [b list_ascii_of_string existsb].
  intros H.
  repeat match type of H with
         | (_ || _)%bool = true => apply orb_true_iff in H as [H|H]
         end;
    try discriminate; apply Ascii.eqb_eq in H; subst; reflexivity.
Qed.

Lemma parse_escaped_byte c rest cur stack :
  Re.is_alnum c = false ->
  Re.parse ("\"%char :: c :: rest) cur stack
  = Re.parse rest (Re.push_item (Re.Lit c) cur) stack.
Proof.
  intros Hc. cbn [Re.parse].
  change (Ascii.eqb "\"%char "\"%char) with true. cbv iota.
  rewrite Hc. reflexivity.
Qed.

Lemma parse_escape pat : forall cur,
  Re.branches cur = [] ->
  Re.parse (escape pat) cur []
  = Some (Re.cat_of (rev (map fst (Re.items cur)) ++ map Re.Lit pat)).
Proof.
  induction pat as [|c pat IH]; intros cur Hb.
  - cbn. unfold Re.close_frame, Re.branch_of. rewrite Hb, app_nil_r.
    reflexivity.
  - unfold escape. cbn [flat_map]. fold (escape pat).
    destruct (Re.is_special c) eqn:E; cbn [app].
    + rewrite parse_escaped_byte by (apply special_not_alnum, E).
      rewrite IH by exact Hb. cbn. rewrite <- app_assoc. reflexivity.
    + rewrite parse_plain_byte by exact E.
      rewrite IH by exact Hb. cbn. rewrite <- app_assoc. reflexivity.
Qed.

(** A prompt in which every special character is preceded by a backslash
    is searched as plain text: the pattern compiles, and the match step of
    [p.expect] finds the first occurrence of the unescaped prompt. *)
Theorem escaped_prompt_is_literal (pat : bytes) :
  exists r,
    Re.compile (escape pat) = Some r
    /\ forall window,
         Pexpect.do_search r window
         = match find pat window with
           | Some i =>
               Some {| Pexpect.buffer := skipn (i + length pat) window;
                       Pexpect.before := firstn i window |}
           | None => None
           end.
Proof.
  exists (literal pat). split.
  - unfold Re.compile. rewrite parse_escape by reflexivity. reflexivity.
  - intros window. apply do_search_literal.
Qed.

Example escaped_gdb_prompt :
  escape (b "(gdb) ") = b "\(gdb\) "
  /\ feed (u "\(gdb\) ") [b "(gdb) "] = ([], true).
Proof. split; reflexivity. Qed.

(** * More about what is printed *)

Lemma lstrip_length s : length (Py.lstrip s) <= length s.
Proof.
  induction s as [|c s IH]; [reflexivity|].
  cbn [Py.lstrip]. destruct (Py.isspace c); cbn [length]; lia.
Qed.

Lemma lstrip_lstrip s : Py.lstrip (Py.lstrip s) = Py.lstrip s.
Proof.
  induction s as [|c s IH]; [reflexivity|].
  cbn [Py.lstrip]. destruct (Py.isspace c) eqn:E; [exact IH|].
  cbn [Py.lstrip]. rewrite E. reflexivity.
Qed.

Lemma lstrip_prefix s pre post :
  Py.lstrip s = s -> s = pre ++ post -> Py.lstrip pre = pre.
Proof.
  intros Hs ->. destruct pre as [|c pre]; [reflexivity|].
  cbn [app Py.lstrip] in *. destruct (Py.isspace c); [|reflexivity].
  pose proof (lstrip_length (pre ++ post)) as Hl.
  rewrite Hs in Hl. cbn [length] in Hl. lia.
Qed.

Lemma rstrip_rstrip s : Py.rstrip (Py.rstrip s) = Py.rstrip s.
Proof.
  unfold Py.rstrip. rewrite rev_involutive, lstrip_lstrip. reflexivity.
Qed.

Lemma strip_is_stripped s :
  Py.lstrip (Py.strip s) = Py.strip s /\ Py.rstrip (Py.strip s) = Py.strip s.
Proof.
  unfold Py.strip. split; [|apply rstrip_rstrip].
  destruct (rstrip_split (Py.lstrip s)) as (trail & Hs & _).
  eapply lstrip_prefix; [apply lstrip_lstrip | exact Hs].
Qed.

Lemma strip_strip s : Py.strip (Py.strip s) = Py.strip s.
Proof.
  destruct (strip_is_stripped s) as [Hl Hr].
  unfold Py.strip at 1. rewrite Hl. exact Hr.
Qed.

Lemma printed_app tr1 tr2 : printed (tr1 ++ tr2) = printed tr1 ++ printed tr2.
Proof.
  induction tr1 as [|e tr1 IH]; [reflexivity|].
  destruct e; cbn; rewrite IH; reflexivity.
Qed.

Lemma loop_prints_stripped args turns : forall p mode reads,
  forallb (fun s => text_eqb (Py.strip s) s)
    (printed (fst (session_loop args turns p mode reads))) = true.
Proof.
  induction turns as [|t turns IH]; intros p mode reads;
    rewrite session_loop_unfold;
    repeat match goal with
           | |- context [match ?x with _ => _ end] =>
               lazymatch x with
               | session_loop _ _ _ _ _ => fail
               | _ => destruct x eqn:?
               end
           end;
    cbn [fst printed forallb]; rewrite ?strip_strip, ?text_eqb_refl;
    try reflexivity.
  match goal with
  | |- context [session_loop args turns ?a ?b ?c] =>
      specialize (IH a b c);
      destruct (session_loop args turns a b c) as [tr out]
  end.
  cbn [fst app printed forallb] in *.
  rewrite strip_strip, text_eqb_refl. exact IH.
Qed.

(** Nothing that [main] prints begins or ends with white space: every
    text passed to [print], the closing message included, is left as it
    is by [strip]. *)
Theorem printed_texts_are_stripped
    (args : Args) (turns : list turn) (p : Pexpect.spawn)
    (mode : Editor.EditingMode) (reads : list Pexpect.read_result) :
  forallb (fun s => text_eqb (Py.strip s) s)
    (printed (fst (main_from args turns p mode reads))) = true.
Proof.
  unfold main_from.
  pose proof (loop_prints_stripped args turns p mode reads) as H.
  destruct (session_loop args turns p mode reads) as [tr out].
  destruct out; cbn [after_loop fst] in *; try exact H.
  rewrite printed_app, forallb_app, H. reflexivity.
Qed.

Lemma lstrip_spaces s : forallb Py.isspace s = true -> Py.lstrip s = [].
Proof.
  induction s as [|c s IH]; [reflexivity|].
  cbn [forallb Py.lstrip]. intros H. apply andb_true_iff in H as [Hc Hs].
  rewrite Hc. apply IH, Hs.
Qed.

(** Output made of white space only is printed as an empty line, and only
    such output is: [strip] gives the empty text exactly for the texts in
    which every character is white space. *)
Theorem strip_empty_iff_blank (s : text) :
  Py.strip s = [] <-> forallb Py.isspace s = true.
Proof.
  split.
  - intros H. destruct (strip_split s) as (lead & trail & Hs & Hl & Ht).
    rewrite H in Hs. rewrite Hs. cbn [app]. rewrite forallb_app, Hl, Ht.
    reflexivity.
  - intros H. unfold Py.strip. rewrite lstrip_spaces by exact H. reflexivity.
Qed.

(** ** Decoding *)

Lemma utf8_decode_ascii_head c bs :
  (N_of_ascii c <? 128)%N = true ->
  Py.utf8_decode (c :: bs)
  = option_map (cons (N_of_ascii c)) (Py.utf8_decode bs).
Proof. intros H. cbn [Py.utf8_decode]. cbv zeta. rewrite H. reflexivity. Qed.

(** Output in ASCII is decoded byte for byte: each byte below 128 becomes
    the code point of the same number, and decoding cannot fail. *)
Theorem ascii_output_decodes (bs : bytes) :
  forallb (fun c => (N_of_ascii c <? 128)%N) bs = true ->
  Py.utf8_decode bs = Some (map N_of_ascii bs).
Proof.
  induction bs as [|c bs IH]; [reflexivity|].
  cbn [forallb]. intros H. apply andb_true_iff in H as [Hc Hbs].
  rewrite utf8_decode_ascii_head by exact Hc.
  rewrite IH by exact Hbs. reflexivity.
Qed.

Lemma ascii_output_decodes_witness :
  forallb (fun c => (N_of_ascii c <? 128)%N) (b "[1] 2") = true
  /\ Py.utf8_decode (b "[1] 2") = Some (map N_of_ascii (b "[1] 2")).
Proof.
  split; [reflexivity|].
  apply (ascii_output_decodes (b "[1] 2")). reflexivity.
Defined.

Ltac bool_to_prop :=
  repeat match goal with
         | H : (_ && _)%bool = true |- _ =>
             apply andb_true_iff in H; destruct H
         | H : (_ || _)%bool = false |- _ =>
             apply orb_false_iff in H; destruct H
         | H : (_ && _)%bool = false |- _ =>
             apply andb_false_iff in H; destruct H
         | H : (_ <? _)%N = true |- _ => apply N.ltb_lt in H
         | H : (_ <? _)%N = false |- _ => apply N.ltb_ge in H
         | H : (_ <=? _)%N = true |- _ => apply N.leb_le in H
         | H : (_ <=? _)%N = false |- _ => apply N.leb_gt in H
         end.

Ltac continuation_bounds :=
  repeat match goal with
         | H : Py.continuation _ = Some _ |- _ =>
             unfold Py.continuation in H;
             match type of H with
             | (if ?c then _ else _) = _ =>
                 destruct c eqn:?; [injection H as H | discriminate H]
             end
         end.

Ltac scalar_goal :=
  unfold scalar_value;
  match goal with
  | |- ((?x <? _)%N && negb ((_ <=? ?x)%N && (?x <=? _)%N))%bool = true =>
      destruct (x <? 1114112)%N eqn:?, (55296 <=? x)%N eqn:?,
               (x <=? 57343)%N eqn:?;
      cbn; try reflexivity; bool_to_prop; lia
  end.

Lemma utf8_decode_scalars_upto n : forall bs t,
  length bs <= n ->
  Py.utf8_decode bs = Some t -> forallb scalar_value t = true.
Proof.
  induction n as [|n IH]; intros bs t Hlen H.
  - destruct bs; [|cbn in Hlen; lia]. injection H as <-. reflexivity.
  - destruct bs as [|b0 r0]; [injection H as <-; reflexivity|].
    cbn [length] in Hlen. cbn [Py.utf8_decode] in H. cbv zeta in H.
    destruct (N_of_ascii b0 <? 128)%N eqn:E1.
    { destruct (Py.utf8_decode r0) as [t0|] eqn:D; [|discriminate].
      injection H as <-. cbn [forallb].
      rewrite (IH r0 t0) by (lia || exact D). rewrite andb_true_r.
      scalar_goal. }
    destruct ((192 <=? N_of_ascii b0) && (N_of_ascii b0 <=? 223))%N eqn:E2.
    { destruct r0 as [|b1 r1]; [discriminate|].
      destruct (Py.continuation b1) as [c1|] eqn:C1; [|discriminate].
      match type of H with
      | (if ?c then _ else _) = _ => destruct c eqn:E3; [discriminate|]
      end.
      destruct (Py.utf8_decode r1) as [t0|] eqn:D; [|discriminate].
      injection H as <-. cbn [forallb length] in *.
      rewrite (IH r1 t0) by (lia || exact D). rewrite andb_true_r.
      continuation_bounds. scalar_goal. }
    destruct ((224 <=? N_of_ascii b0) && (N_of_ascii b0 <=? 239))%N eqn:E3.
    { destruct r0 as [|b1 [|b2 r2]]; try discriminate.
      destruct (Py.continuation b1) as [c1|] eqn:C1; [|discriminate].
      destruct (Py.continuation b2) as [c2|] eqn:C2; [|discriminate].
      match type of H with
      | (if ?c then _ else _) = _ => destruct c eqn:E4; [discriminate|]
      end.
      destruct (Py.utf8_decode r2) as [t0|] eqn:D; [|discriminate].
      injection H as <-. cbn [forallb length] in *.
      rewrite (IH r2 t0) by (lia || exact D). rewrite andb_true_r.
      continuation_bounds. scalar_goal. }
    destruct ((240 <=? N_of_ascii b0) && (N_of_ascii b0 <=? 247))%N eqn:E4;
      [|discriminate].
    destruct r0 as [|b1 [|b2 [|b3 r3]]]; try discriminate.
    destruct (Py.continuation b1) as [c1|] eqn:C1; [|discriminate].
    destruct (Py.continuation b2) as [c2|] eqn:C2; [|discriminate].
    destruct (Py.continuation b3) as [c3|] eqn:C3; [|discriminate].
    match type of H with
    | (if ?c then _ else _) = _ => destruct c eqn:E5; [discriminate|]
    end.
    destruct (Py.utf8_decode r3) as [t0|] eqn:D; [|discriminate].
    injection H as <-. cbn [forallb length] in *.
    rewrite (IH r3 t0) by (lia || exact D). rewrite andb_true_r.
    continuation_bounds. scalar_goal.
Qed.

(** What is decoded is always proper text: every code point that
    [decode] gives is below U+110000 and is not a surrogate, whatever the
    child wrote. *)
Theorem decoded_text_is_scalar (bs : bytes) (t : text) :
  Py.utf8_decode bs = Some t -> forallb scalar_value t = true.
Proof. apply (utf8_decode_scalars_upto (length bs)). lia. Qed.

Lemma decoded_text_is_scalar_witness :
  Py.utf8_decode (b "Tạm biệt.") = Some farewell
  /\ forallb scalar_value farewell = true.
Proof.
  split; [reflexivity|].
  apply (decoded_text_is_scalar (b "Tạm biệt.") farewell). reflexivity.
Defined.

(** * [load_lexer] *)

Lemma break_at_dot_some s : forall x y,
  break_at_dot s = Some (x, y) ->
  s = x ++ 46%N :: y /\ existsb (N.eqb 46) x = false.
Proof.
  induction s as [|c s IH]; intros x y H; cbn [break_at_dot] in H;
    [discriminate|].
  destruct (c =? 46)%N eqn:E.
  - injection H as <- <-. apply N.eqb_eq in E. subst. auto.
  - destruct (break_at_dot s) as [[x' y']|]; [|discriminate].
    injection H as <- <-. destruct (IH x' y' eq_refl) as [-> Hx].
    split; [reflexivity|]. cbn [existsb]. rewrite N.eqb_sym, E. exact Hx.
Qed.

Lemma break_at_dot_none s :
  break_at_dot s = None <-> existsb (N.eqb 46) s = false.
Proof.
  induction s as [|c s IH]; cbn [break_at_dot existsb]; [tauto|].
  rewrite (N.eqb_sym 46 c). destruct (c =? 46)%N; cbn [orb].
  - split; discriminate.
  - rewrite <- IH. destruct (break_at_dot s) as [[x y]|]; split;
      congruence.
Qed.

Lemma existsb_rev {A} (f : A -> bool) l : existsb f (rev l) = existsb f l.
Proof.
  induction l as [|a l IH]; [reflexivity|].
  cbn [rev existsb]. rewrite existsb_app, IH. cbn. rewrite orb_false_r.
  apply orb_comm.
Qed.

(** A name with a full stop is cut at its last full stop: the class name
    is what follows it and contains no full stop, the module name is what
    precedes it, the two joined by a full stop give the name back, and
    the message is printed before the module is imported, so that it is
    printed even when the import or the look-up of the class fails. *)
Theorem load_lexer_splits_at_last_dot
    (import_module : text -> option (text -> bool)) (clsname : text) :
  existsb (N.eqb 46) clsname = true ->
  exists modname cls,
    clsname = modname ++ 46%N :: cls
    /\ existsb (N.eqb 46) cls = false
    /\ load_lexer import_module clsname
       = ([Print (load_message cls modname)],
          match import_module modname with
          | None => LoadRaised ImportRaised
          | Some names =>
              if names cls then Loaded modname cls
              else LoadRaised AttributeError
          end).
Proof.
  intros Hdot. unfold load_lexer, rsplit_dot.
  destruct (break_at_dot (rev clsname)) as [[x y]|] eqn:E.
  - apply break_at_dot_some in E as [Hrev Hx].
    exists (rev y), (rev x). split; [|split].
    + rewrite <- (rev_involutive clsname), Hrev, rev_app_distr. cbn [rev].
      rewrite <- app_assoc. reflexivity.
    + rewrite existsb_rev. exact Hx.
    + cbn [nth_error]. destruct (import_module (rev y)) as [names|];
        [destruct (names (rev x))|]; reflexivity.
  - apply break_at_dot_none in E. rewrite existsb_rev in E. congruence.
Qed.

Lemma load_lexer_splits_at_last_dot_witness :
  existsb (N.eqb 46) (u "pygments.lexers.perl.PerlLexer") = true
  /\ exists modname cls,
       u "pygments.lexers.perl.PerlLexer" = modname ++ 46%N :: cls
       /\ existsb (N.eqb 46) cls = false
       /\ load_lexer (fun _ => None) (u "pygments.lexers.perl.PerlLexer")
          = ([Print (load_message cls modname)],
             match (fun _ : text => @None (text -> bool)) modname with
             | None => LoadRaised ImportRaised
             | Some names =>
                 if names cls then Loaded modname cls
                 else LoadRaised AttributeError
             end).
Proof.
  split; [reflexivity|].
  apply (load_lexer_splits_at_last_dot (fun _ => None)
           (u "pygments.lexers.perl.PerlLexer")).
  reflexivity.
Defined.

(** A name without a full stop makes [load_lexer] fail with [IndexError]
    before it prints or imports anything. *)
Theorem load_lexer_without_dot
    (import_module : text -> option (text -> bool)) (clsname : text) :
  existsb (N.eqb 46) clsname = false ->
  load_lexer import_module clsname = ([], LoadRaised IndexError).
Proof.
  intros Hdot. unfold load_lexer, rsplit_dot.
  rewrite <- existsb_rev in Hdot. apply break_at_dot_none in Hdot.
  rewrite Hdot. reflexivity.
Qed.

Lemma load_lexer_without_dot_witness :
  existsb (N.eqb 46) (u "PerlLexer") = false
  /\ load_lexer (fun _ => Some (fun _ => true)) (u "PerlLexer")
     = ([], LoadRaised IndexError).
Proof.
  split; [reflexivity|].
  apply (load_lexer_without_dot (fun _ => Some (fun _ => true))
           (u "PerlLexer")).
  reflexivity.
Defined.
